(** * Burn-after-reading: session lifecycle and batch recall

    A shallow embedding of [src/index.ts] (the koishi plugin
    [burn-after-reading]) and the properties of its session lifecycle,
    message capture, burn engine and start-up recovery.

    The plugin is asynchronous JavaScript.  Its functions are embedded as
    programs over the calls they make on the store, the platform and the
    runtime ([Prog]); a program is run against an explicit [World].  Running
    a program to its end without letting another one in is [run]; letting
    several programs take turns at their [await]s is [interleave]. *)

From Stdlib Require Import ZArith List String Ascii Bool Lia DecimalString Sorted.
Import ListNotations.
Local Open Scope string_scope.
Local Open Scope Z_scope.

(** ** Data model *)

Definition UserId := string.
Definition GuildId := string.
Definition ChannelId := string.
Definition MessageId := string.

(** A platform connection; [bot.selfId] is all the plugin reads of it. *)
Definition Bot := string.

(** Instants are [Date.getTime()] values: integer milliseconds. *)
Definition Time := Z.

(** What a rejected promise or a [throw] carries. *)
Definition Err := string.

(** [interface Config]; the numeric options are taken integer-valued
    (whole seconds, whole users). *)
Record Config := mkConfig {
  recallDelay : Z;
  maxDuration : Z;
  maxUsers : Z;
  batchRecallInterval : Z
}.

(** The defaults of the [Schema]. *)
Definition defaultConfig : Config := mkConfig 5 3600 10 1.

(** The lower bounds the [Schema] puts on the options. *)
Definition validConfig (c : Config) : Prop :=
  1 <= recallDelay c /\ 1 <= maxDuration c /\ 1 <= maxUsers c /\
  1 <= batchRecallInterval c.

(** [interface BurnAfterReadingUser] *)
Record BurnAfterReadingUser := mkUser {
  u_id : Z;
  u_userId : UserId;
  u_guildId : GuildId;
  u_channelId : ChannelId;
  u_enabledAt : Time;
  u_expiresAt : Time
}.

(** [interface BurnAfterReadingMessage] *)
Record BurnAfterReadingMessage := mkMessage {
  m_id : Z;
  m_messageId : MessageId;
  m_userId : UserId;
  m_guildId : GuildId;
  m_channelId : ChannelId;
  m_sentAt : Time
}.

(** [enum GroupRole] *)
Inductive GroupRole := member | admin | owner.

(** [===] on roles. *)
Definition GroupRole_eqb (a b : GroupRole) : bool :=
  match a, b with
  | member, member | admin, admin | owner, owner => true
  | _, _ => false
  end.

(** What [bot.getGuild] resolves to, as far as the plugin reads it. *)
Record Guild := mkGuild { g_name : option string }.

(** The fields of a koishi [Session] the plugin reads.  [guildId] and
    [messageId] may be missing. *)
Record Session := mkSession {
  s_userId : UserId;
  s_guildId : option GuildId;
  s_channelId : ChannelId;
  s_messageId : option MessageId;
  s_bot : Bot
}.

(** JavaScript truthiness of an optional string: [undefined] and the empty
    string are falsy. *)
Definition truthy (o : option string) : option string :=
  match o with
  | Some s => if String.eqb s EmptyString then None else Some s
  | None => None
  end.

(** A field written to the store; a missing value is kept as the empty
    string. *)
Definition stored (o : option string) : string :=
  match o with
  | Some s => s
  | None => EmptyString
  end.

(** A settled promise. *)
Inductive Outcome (R : Type) : Type :=
| Resolved (r : R)
| Rejected (e : Err).
Arguments Resolved {R} r.
Arguments Rejected {R} e.

(** Whether a promise was fulfilled. *)
Definition resolved {R} (o : Outcome R) : bool :=
  match o with Resolved _ => true | Rejected _ => false end.

(** ** The world the plugin runs in *)

(** The levels of [ctx.logger] the plugin uses. *)
Inductive Level := LDebug | LInfo | LWarn | LError.

Record LogEntry := mkLog {
  l_level : Level;
  l_text : string;
  l_error : option Err
}.

(** The two asynchronous activities the plugin starts and does not wait
    for: the callback given to [ctx.setTimeout] by [scheduleExpiration], and
    the [burnAfterReading] that the closing command starts. *)
Inductive Job :=
| JExpire (userId : UserId) (guildId : GuildId) (channelId : ChannelId) (bot : Bot)
| JBurn (userId : UserId) (guildId : GuildId) (channelId : ChannelId) (bot : Bot).

(** An armed [ctx.setTimeout]. *)
Record Timer := mkTimer {
  t_due : Time;
  t_delay : Z;
  t_job : Job
}.

(** What the plugin does to the outside, in the order it does it. *)
Inductive Effect :=
| ESleep (ms : Z)
| ESend (bot : Bot) (channel : ChannelId) (text : string)
        (result : Outcome (list MessageId))
| EDelete (bot : Bot) (channel : ChannelId) (messageId : MessageId) (ok : bool).

(** The two tables with their next ids, the clock, the registry of
    connections ([ctx.bots]), the armed timers, the jobs started and not yet
    run, and what has been done and logged so far. *)
Record World := mkWorld {
  users : list BurnAfterReadingUser;
  userSeq : Z;
  messages : list BurnAfterReadingMessage;
  messageSeq : Z;
  clock : Time;
  bots : list Bot;
  timers : list Timer;
  started : list Job;
  effects : list Effect;
  logs : list LogEntry
}.

(** An empty store at the instant [t], with the connections [bs]. *)
Definition emptyWorld (t : Time) (bs : list Bot) : World :=
  mkWorld [] 1 [] 1 t bs [] [] [] [].

(** The world with one field changed. *)
Definition set_users (l : list BurnAfterReadingUser) (w : World) : World :=
  mkWorld l (userSeq w) (messages w) (messageSeq w) (clock w) (bots w)
          (timers w) (started w) (effects w) (logs w).

Definition set_userSeq (n : Z) (w : World) : World :=
  mkWorld (users w) n (messages w) (messageSeq w) (clock w) (bots w)
          (timers w) (started w) (effects w) (logs w).

Definition set_messages (l : list BurnAfterReadingMessage) (w : World) : World :=
  mkWorld (users w) (userSeq w) l (messageSeq w) (clock w) (bots w)
          (timers w) (started w) (effects w) (logs w).

Definition set_messageSeq (n : Z) (w : World) : World :=
  mkWorld (users w) (userSeq w) (messages w) n (clock w) (bots w)
          (timers w) (started w) (effects w) (logs w).

Definition set_now (t : Time) (w : World) : World :=
  mkWorld (users w) (userSeq w) (messages w) (messageSeq w) t (bots w)
          (timers w) (started w) (effects w) (logs w).

Definition set_timers (l : list Timer) (w : World) : World :=
  mkWorld (users w) (userSeq w) (messages w) (messageSeq w) (clock w) (bots w)
          l (started w) (effects w) (logs w).

Definition set_started (l : list Job) (w : World) : World :=
  mkWorld (users w) (userSeq w) (messages w) (messageSeq w) (clock w) (bots w)
          (timers w) l (effects w) (logs w).

Definition add_effect (e : Effect) (w : World) : World :=
  mkWorld (users w) (userSeq w) (messages w) (messageSeq w) (clock w) (bots w)
          (timers w) (started w) (effects w ++ [e]) (logs w).

Definition add_log (e : LogEntry) (w : World) : World :=
  mkWorld (users w) (userSeq w) (messages w) (messageSeq w) (clock w) (bots w)
          (timers w) (started w) (effects w) (logs w ++ [e]).

(** The collaborators the plugin calls and does not implement: the
    messaging platform and the store's verdict on an insert.  Each may
    answer by what has happened so far, which the [World] records. *)
Record Env := mkEnv {
  getGroupMemberInfo : World -> GuildId -> UserId -> Outcome GroupRole;
  getGuild : World -> Bot -> GuildId -> Outcome (option Guild);
  sendMessage : World -> Bot -> ChannelId -> string -> Outcome (list MessageId);
  deleteMessage : World -> Bot -> ChannelId -> MessageId -> Outcome unit;
  create : World -> Outcome unit
}.

(** ** The store

    [ctx.database] is taken as the record store the plugin assumes: a table
    is the list of its rows in insertion order, [get] and [remove] filter by
    equality on the fields the query names and cannot fail, and [create]
    appends a row under the next auto-increment id unless the store rejects
    the insert ([create] of [Env]), the failure the source handles with
    [.catch] on its own. *)

(** The query object of [get] and [remove]: the fields it names. *)
Record Query := mkQuery {
  q_id : option Z;
  q_userId : option UserId;
  q_guildId : option GuildId
}.

(** [{ userId }] *)
Definition byUser (u : UserId) : Query := mkQuery None (Some u) None.

(** [{ guildId }] *)
Definition byGuild (g : GuildId) : Query := mkQuery None None (Some g).

(** [{ userId, guildId }] *)
Definition byUserGuild (u : UserId) (g : GuildId) : Query :=
  mkQuery None (Some u) (Some g).

(** [{ id }] *)
Definition byId (i : Z) : Query := mkQuery (Some i) None None.

(** [{}] *)
Definition everyRow : Query := mkQuery None None None.

(** A field passes when the query does not name it or names its value. *)
Definition holds {A} (o : option A) (eqb : A -> A -> bool) (x : A) : bool :=
  match o with
  | Some v => eqb v x
  | None => true
  end.

(** The rows of the session table a query selects. *)
Definition user_matches (q : Query) (r : BurnAfterReadingUser) : bool :=
  holds (q_id q) Z.eqb (u_id r) && holds (q_userId q) String.eqb (u_userId r)
  && holds (q_guildId q) String.eqb (u_guildId r).

(** The rows of the ledger a query selects. *)
Definition message_matches (q : Query) (r : BurnAfterReadingMessage) : bool :=
  holds (q_id q) Z.eqb (m_id r) && holds (q_userId q) String.eqb (m_userId r)
  && holds (q_guildId q) String.eqb (m_guildId r).

(** What [remove] leaves: the rows the query does not select. *)
Definition keep {A} (f : A -> bool) (x : A) : bool := negb (f x).

(** ** Programs *)

(** The calls a program makes.  The index is what the call answers. *)
Inductive Cmd : Type -> Type :=
| GetUsers (q : Query) : Cmd (list BurnAfterReadingUser)
| CreateUser (userId : UserId) (guildId : GuildId) (channelId : ChannelId)
             (enabledAt expiresAt : Time) : Cmd unit
| RemoveUsers (q : Query) : Cmd unit
| GetMessages (q : Query) : Cmd (list BurnAfterReadingMessage)
| CreateMessage (messageId : MessageId) (userId : UserId) (guildId : GuildId)
                (channelId : ChannelId) (sentAt : Time) : Cmd unit
| RemoveMessages (q : Query) : Cmd unit
| GetGroupMemberInfo (guildId : GuildId) (userId : UserId) : Cmd GroupRole
| GetGuild (bot : Bot) (guildId : GuildId) : Cmd (option Guild)
| SendMessage (bot : Bot) (channelId : ChannelId) (text : string)
  : Cmd (list MessageId)
| DeleteMessage (bot : Bot) (channelId : ChannelId) (messageId : MessageId)
  : Cmd unit
| Sleep (ms : Z) : Cmd unit
| DateNow : Cmd Time
| Log (level : Level) (text : string) (err : option Err) : Cmd unit
| SetTimeout (job : Job) (delay : Z) : Cmd unit
| Bots : Cmd (list Bot)
| Start (job : Job) : Cmd unit.

(** A program: it returns, throws, or makes a call and goes on with the
    call's outcome.  [awaited] tells whether the program is suspended on the
    call ([await]), which is where other programs may take a turn. *)
Inductive Prog (A : Type) : Type :=
| Ret (a : A)
| Throw (e : Err)
| Do (R : Type) (c : Cmd R) (awaited : bool) (k : Outcome R -> Prog A).
Arguments Ret {A} a.
Arguments Throw {A} e.
Arguments Do {A R} c awaited k.

(** [p] and then [f] of what [p] returns. *)
Fixpoint bind {A B} (p : Prog A) (f : A -> Prog B) : Prog B :=
  match p with
  | Ret a => f a
  | Throw e => Throw e
  | Do c b k => Do c b (fun o => bind (k o) f)
  end.

(** [try { p } catch (e) { h e }] *)
Fixpoint try_catch {A} (p : Prog A) (h : Err -> Prog A) : Prog A :=
  match p with
  | Ret a => Ret a
  | Throw e => h e
  | Do c b k => Do c b (fun o => try_catch (k o) h)
  end.

(** Going on from a settled promise: its value, or its error thrown. *)
Definition settle {R} (o : Outcome R) : Prog R :=
  match o with
  | Resolved r => Ret r
  | Rejected e => Throw e
  end.

(** [await c] *)
Definition await {R} (c : Cmd R) : Prog R := Do c true settle.

(** A call that answers at once ([Date.now()], [ctx.logger], ...). *)
Definition call {R} (c : Cmd R) : Prog R := Do c false settle.

(** [c.catch(h)] with no [await]: the caller goes on whatever the outcome. *)
Definition detached {R} (c : Cmd R) (h : Err -> Prog unit) : Prog unit :=
  Do c false (fun o => match o with
                       | Resolved _ => Ret tt
                       | Rejected e => h e
                       end).

(** A promise that is dropped: neither awaited nor given a handler. *)
Definition dropped {R} (c : Cmd R) : Prog unit :=
  Do c false (fun _ => Ret tt).

Declare Scope prog_scope.
Delimit Scope prog_scope with prog.
Notation "x <- p ;; q" := (bind p (fun x => q))
  (at level 61, p at next level, right associativity) : prog_scope.
Notation "p ;; q" := (bind p (fun _ => q))
  (at level 61, right associativity) : prog_scope.
Local Open Scope prog_scope.

(** ** Running programs *)

Section Plugin.

(** [apply(ctx, config)]: everything below is in the scope of one
    configuration and one environment. *)
Variable config : Config.
Variable env : Env.

(** What one call does to the world and what it answers. *)
Definition exec {R} (c : Cmd R) (w : World) : Outcome R * World :=
  match c in Cmd R return Outcome R * World with
  | GetUsers q => (Resolved (filter (user_matches q) (users w)), w)
  | CreateUser userId guildId channelId enabledAt expiresAt =>
      match create env w with
      | Resolved _ =>
          (Resolved tt,
           set_userSeq (userSeq w + 1)
             (set_users (users w ++ [mkUser (userSeq w) userId guildId channelId
                                            enabledAt expiresAt]) w))
      | Rejected e => (Rejected e, w)
      end
  | RemoveUsers q =>
      (Resolved tt, set_users (filter (keep (user_matches q)) (users w)) w)
  | GetMessages q => (Resolved (filter (message_matches q) (messages w)), w)
  | CreateMessage messageId userId guildId channelId sentAt =>
      match create env w with
      | Resolved _ =>
          (Resolved tt,
           set_messageSeq (messageSeq w + 1)
             (set_messages (messages w ++ [mkMessage (messageSeq w) messageId userId
                                                     guildId channelId sentAt]) w))
      | Rejected e => (Rejected e, w)
      end
  | RemoveMessages q =>
      (Resolved tt, set_messages (filter (keep (message_matches q)) (messages w)) w)
  | GetGroupMemberInfo guildId userId => (getGroupMemberInfo env w guildId userId, w)
  | GetGuild bot guildId => (getGuild env w bot guildId, w)
  | SendMessage bot channelId text =>
      let r := sendMessage env w bot channelId text in
      (r, add_effect (ESend bot channelId text r) w)
  | DeleteMessage bot channelId messageId =>
      let r := deleteMessage env w bot channelId messageId in
      (r, add_effect (EDelete bot channelId messageId (resolved r)) w)
  | Sleep ms => (Resolved tt, add_effect (ESleep ms) (set_now (clock w + ms) w))
  | DateNow => (Resolved (clock w), w)
  | Log level text err => (Resolved tt, add_log (mkLog level text err) w)
  | SetTimeout job delay =>
      (Resolved tt, set_timers (timers w ++ [mkTimer (clock w + delay) delay job]) w)
  | Bots => (Resolved (bots w), w)
  | Start job => (Resolved tt, set_started (started w ++ [job]) w)
  end.

(** A program run to its end with nothing else taking a turn. *)
Fixpoint run {A} (p : Prog A) (w : World) : Outcome A * World :=
  match p with
  | Ret a => (Resolved a, w)
  | Throw e => (Rejected e, w)
  | Do c _ k => let (o, w') := exec c w in run (k o) w'
  end.

(** [advance p w]: the program goes on for as long as it does not wait. *)
Fixpoint advance {A} (p : Prog A) (w : World) : Prog A * World :=
  match p with
  | Do c false k => let (o, w') := exec c w in advance (k o) w'
  | _ => (p, w)
  end.

(** [resume p w]: the call [p] waits on settles, and [p] goes on to its next
    [await] (or its end). *)
Definition resume {A} (p : Prog A) (w : World) : Prog A * World :=
  match p with
  | Do c true k => let (o, w') := exec c w in advance (k o) w'
  | _ => advance p w
  end.

(** The [n]-th of the programs in flight is resumed. *)
Fixpoint resume_nth {A} (n : nat) (ps : list (Prog A)) (w : World)
  : list (Prog A) * World :=
  match ps, n with
  | [], _ => ([], w)
  | p :: rest, O => let (p', w') := resume p w in (p' :: rest, w')
  | p :: rest, S n' => let (rest', w') := resume_nth n' rest w in (p :: rest', w')
  end.

(** Several programs in flight; the schedule names, turn by turn, which of
    them is resumed. *)
Fixpoint interleave {A} (schedule : list nat) (ps : list (Prog A)) (w : World)
  : list (Prog A) * World :=
  match schedule with
  | [] => (ps, w)
  | n :: rest => let (ps', w') := resume_nth n ps w in interleave rest ps' w'
  end.

(** The program has come to its end. *)
Definition finished {A} (p : Prog A) : bool :=
  match p with
  | Do _ _ _ => false
  | _ => true
  end.

(** ** The plugin *)

(** [`${n}`] for a whole number. *)
Definition show (n : Z) : string := NilZero.string_of_int (Z.to_int n).

(** [checkBotPermission] *)
Definition checkBotPermission (session : Session) : Prog bool :=
  match truthy (s_guildId session) with
  | None => Ret false
  | Some guildId =>
      try_catch
        (botRole <- await (GetGroupMemberInfo guildId (s_bot session)) ;;
         if GroupRole_eqb botRole member then Ret false else Ret true)
        (fun error => call (Log LWarn "检查 bot 权限失败:" (Some error)) ;; Ret false)
  end.

(** [checkUserRole] *)
Definition checkUserRole (session : Session) : Prog bool :=
  match truthy (s_guildId session) with
  | None => Ret false
  | Some guildId =>
      try_catch
        (userRole <- await (GetGroupMemberInfo guildId (s_userId session)) ;;
         botRole <- await (GetGroupMemberInfo guildId (s_bot session)) ;;
         if GroupRole_eqb userRole owner
            || (GroupRole_eqb userRole admin && negb (GroupRole_eqb botRole owner))
         then Ret false else Ret true)
        (fun error => call (Log LWarn "检查用户角色失败:" (Some error)) ;; Ret false)
  end.

(** [storeMessageForRecall]: the insert is issued and not awaited. *)
Definition storeMessageForRecall (session : Session) (messageId : MessageId)
    (userId : UserId) : Prog unit :=
  sentAt <- call DateNow ;;
  detached (CreateMessage messageId userId (stored (s_guildId session))
                          (s_channelId session) sentAt)
           (fun err => call (Log LWarn "存储消息信息失败:" (Some err))).

(** The [try] block in the loop of [batchRecallMessages]. *)
Definition recallOne (msg : BurnAfterReadingMessage) (bot : Bot) : Prog unit :=
  try_catch
    (await (DeleteMessage bot (m_channelId msg) (m_messageId msg)) ;;
     call (Log LInfo ("已撤回消息 " ++ m_messageId msg) None) ;;
     await (RemoveMessages (byId (m_id msg))))
    (fun error =>
       call (Log LWarn ("撤回消息 " ++ m_messageId msg ++ " 失败:") (Some error))).

(** The loop of [batchRecallMessages].  [messages.indexOf(msg)] is the
    position of [msg]: the rows of one query are distinct objects. *)
Fixpoint recallEach (length_ : Z) (index : Z) (rest : list BurnAfterReadingMessage)
    (bot : Bot) : Prog unit :=
  match rest with
  | [] => Ret tt
  | msg :: rest' =>
      recallOne msg bot ;;
      (if index <? length_ - 1
       then await (Sleep (batchRecallInterval config * 1000))
       else Ret tt) ;;
      recallEach length_ (index + 1) rest' bot
  end.

(** [batchRecallMessages] *)
Definition batchRecallMessages (userId : UserId) (guildId : GuildId)
    (channelId : ChannelId) (bot : Bot) : Prog unit :=
  try_catch
    (messages <- await (GetMessages (byUserGuild userId guildId)) ;;
     match messages with
     | [] =>
         call (Log LInfo ("用户 " ++ userId ++ " 在群组 " ++ guildId
                         ++ " 中没有需要撤回的消息") None)
     | _ :: _ =>
         call (Log LInfo ("开始批量撤回用户 " ++ userId ++ " 的 "
                         ++ show (Z.of_nat (List.length messages)) ++ " 条消息") None) ;;
         await (Sleep (recallDelay config * 1000)) ;;
         recallEach (Z.of_nat (List.length messages)) 0 messages bot ;;
         dropped (SendMessage bot channelId "感谢使用阅后即焚") ;;
         call (Log LInfo ("用户 " ++ userId ++ " 的批量撤回已完成") None)
     end)
    (fun error => call (Log LError "批量撤回过程中出错:" (Some error))).

(** [burnAfterReading] *)
Definition burnAfterReading (userId : UserId) (guildId : GuildId)
    (channelId : ChannelId) (bot : Bot) : Prog unit :=
  try_catch
    (await (RemoveUsers (byUserGuild userId guildId)) ;;
     batchRecallMessages userId guildId channelId bot)
    (fun error => call (Log LError "批量撤回过程中出错:" (Some error))).

(** [scheduleExpiration] *)
Definition scheduleExpiration (userId : UserId) (guildId : GuildId)
    (channelId : ChannelId) (expiresAt : Time) (bot : Bot) : Prog unit :=
  now <- call DateNow ;;
  let delay := expiresAt - now in
  if delay <=? 0 then Ret tt
  else call (SetTimeout (JExpire userId guildId channelId bot) delay).

(** The callback [scheduleExpiration] arms. *)
Definition onExpire (userId : UserId) (guildId : GuildId)
    (channelId : ChannelId) (bot : Bot) : Prog unit :=
  try_catch
    (call (Log LInfo ("用户 " ++ userId ++ " 在群组 " ++ guildId
                     ++ " 的阅后即焚模式已过期") None) ;;
     expireNotificationMsg <-
       await (SendMessage bot channelId
                ("用户 " ++ userId ++ " 的阅后即焚已过期，消息将在 "
                 ++ show (recallDelay config) ++ " 秒后销毁")) ;;
     match expireNotificationMsg with
     | first :: _ =>
         sentAt <- call DateNow ;;
         try_catch
           (await (CreateMessage first userId guildId channelId sentAt))
           (fun err => call (Log LWarn "存储过期通知消息失败:" (Some err)))
     | [] => Ret tt
     end ;;
     burnAfterReading userId guildId channelId bot)
    (fun error => call (Log LWarn "处理用户过期失败:" (Some error))).

(** [guildInfo] of the two commands: the group's name and id when the
    platform gives the name, its id alone otherwise. *)
Definition describeGuild (bot : Bot) (guildId : GuildId) : Prog string :=
  try_catch
    (guild <- await (GetGuild bot guildId) ;;
     match guild with
     | Some g =>
         match truthy (g_name g) with
         | Some name => Ret (name ++ "（" ++ guildId ++ "）")
         | None => Ret guildId
         end
     | None => Ret guildId
     end)
    (fun error => call (Log LDebug "获取群组信息失败:" (Some error)) ;; Ret guildId).

(** The part of the action of [阅后即焚.开启] that opens the session, once
    every check has passed. *)
Definition activate (session : Session) (guildId : GuildId) : Prog (option string) :=
  now <- call DateNow ;;
  let expiresAt := now + maxDuration config * 1000 in
  await (CreateUser (s_userId session) guildId (s_channelId session)
                    now expiresAt) ;;
  await (CreateMessage (stored (s_messageId session)) (s_userId session)
                       guildId (s_channelId session) now) ;;
  scheduleExpiration (s_userId session) guildId (s_channelId session)
                     expiresAt (s_bot session) ;;
  notificationMsg <-
    await (SendMessage (s_bot session) (s_channelId session)
             ("阅后即焚模式已开启。在关闭前或 " ++ show (maxDuration config)
              ++ " 秒内发送的消息都将延迟 " ++ show (recallDelay config)
              ++ " 秒批量撤回。")) ;;
  match notificationMsg with
  | first :: _ =>
      try_catch
        (await (CreateMessage first (s_userId session) guildId
                              (s_channelId session) now))
        (fun err => call (Log LWarn "存储通知消息失败:" (Some err)))
  | [] => Ret tt
  end ;;
  Ret None.

(** The action of the command [阅后即焚.开启]; it answers the reply it
    returns, if any. *)
Definition enable (session : Session) : Prog (option string) :=
  match truthy (s_guildId session) with
  | None => Ret (Some "此命令只能在群组中使用。")
  | Some guildId =>
    hasPermission <- checkBotPermission session ;;
    if negb hasPermission then Ret (Some "bot没有管理员权限来撤回消息。") else
    hasRole <- checkUserRole session ;;
    if negb hasRole then Ret (Some "用户管理级别等于或大于bot，无法开启") else
    userGlobalStatus <- await (GetUsers (byUser (s_userId session))) ;;
    match userGlobalStatus with
    | existingRecord :: _ =>
        if String.eqb (u_guildId existingRecord) guildId
        then Ret (Some "您已经在当前群组开启了阅后即焚模式，请勿重复开启")
        else
          guildInfo <- describeGuild (s_bot session) (u_guildId existingRecord) ;;
          Ret (Some ("您已在群组 " ++ guildInfo
                     ++ " 中开启了阅后即焚模式，一个用户同时只能在一个群组中使用此功能。请先在该群组关闭后再试。"))
    | [] =>
        activeUsers <- await (GetUsers (byGuild guildId)) ;;
        if Z.of_nat (List.length activeUsers) >=? maxUsers config
        then Ret (Some ("当前群组已达到最大用户数限制（" ++ show (maxUsers config)
                        ++ "人），请稍后再试。"))
        else activate session guildId
    end
  end.

(** The part of the action of [阅后即焚.关闭] that closes the session: the
    notice, then the burn, started and not awaited. *)
Definition deactivate (session : Session) (guildId : GuildId) : Prog (option string) :=
  closeNotificationMsg <-
    await (SendMessage (s_bot session) (s_channelId session)
             ("阅后即焚模式已关闭。消息将在 " ++ show (recallDelay config)
              ++ " 秒后被销毁")) ;;
  match closeNotificationMsg with
  | first :: _ =>
      sentAt <- call DateNow ;;
      try_catch
        (await (CreateMessage first (s_userId session) guildId
                              (s_channelId session) sentAt))
        (fun err => call (Log LWarn "存储关闭通知消息失败:" (Some err)))
  | [] => Ret tt
  end ;;
  call (Start (JBurn (s_userId session) guildId (s_channelId session)
                     (s_bot session))) ;;
  Ret None.

(** The action of the command [阅后即焚.关闭]. *)
Definition disable (session : Session) : Prog (option string) :=
  match truthy (s_guildId session) with
  | None => Ret (Some "此命令只能在群组中使用。")
  | Some guildId =>
    currentGuildStatus <-
      await (GetUsers (byUserGuild (s_userId session) guildId)) ;;
    match currentGuildStatus with
    | [] =>
        otherGuildStatus <- await (GetUsers (byUser (s_userId session))) ;;
        match otherGuildStatus with
        | existingRecord :: _ =>
            guildInfo <- describeGuild (s_bot session) (u_guildId existingRecord) ;;
            Ret (Some ("您在当前群组没有开启阅后即焚模式。您的阅后即焚模式在群组 "
                       ++ guildInfo ++ " 中开启，请在该群组执行关闭命令。"))
        | [] => Ret (Some "您在当前群组没有开启阅后即焚模式。")
        end
    | _ :: _ => deactivate session guildId
    end
  end.

(** The listener on [message]. *)
Definition onMessage (session : Session) : Prog unit :=
  match truthy (s_guildId session), truthy (s_messageId session) with
  | Some guildId, Some messageId =>
      users_ <- await (GetUsers (byUserGuild (s_userId session) guildId)) ;;
      match users_ with
      | [] => Ret tt
      | _ :: _ =>
          storeMessageForRecall session messageId (s_userId session)
      end
  | _, _ => Ret tt
  end.

(** One turn of the loop of the listener on [ready]. *)
Definition recoverOne (user : BurnAfterReadingUser) : Prog unit :=
  now <- call DateNow ;;
  if now <? u_expiresAt user then
    bots_ <- call Bots ;;
    match bots_ with
    | bot :: _ =>
        scheduleExpiration (u_userId user) (u_guildId user) (u_channelId user)
                           (u_expiresAt user) bot
    | [] => Ret tt
    end
  else
    bots_ <- call Bots ;;
    match bots_ with
    | bot :: _ =>
        burnAfterReading (u_userId user) (u_guildId user) (u_channelId user) bot
    | [] => Ret tt
    end.

(** The loop of the listener on [ready]. *)
Fixpoint recoverEach (activeUsers : list BurnAfterReadingUser) : Prog unit :=
  match activeUsers with
  | [] => Ret tt
  | user :: rest => recoverOne user ;; recoverEach rest
  end.

(** The listener on [ready]. *)
Definition onReady : Prog unit :=
  try_catch
    (activeUsers <- await (GetUsers everyRow) ;;
     recoverEach activeUsers ;;
     call (Log LInfo "阅后即焚插件加载成功" None))
    (fun error => call (Log LError "插件初始化失败:" (Some error))).

(** What a started job runs. *)
Definition perform (job : Job) : Prog unit :=
  match job with
  | JExpire userId guildId channelId bot => onExpire userId guildId channelId bot
  | JBurn userId guildId channelId bot =>
      try_catch (burnAfterReading userId guildId channelId bot)
                (fun err => call (Log LError "阅后即焚出错:" (Some err)))
  end.

End Plugin.

(** ** The plugin at work

    What reaches the plugin, one thing at a time: a command, a message, the
    [ready] event, time passing, an armed timer coming due, a started job
    getting its turn.  [deliver] lets each run to its end before the next. *)

Inductive Input :=
| Enable (session : Session)
| Disable (session : Session)
| Incoming (session : Session)
| Ready
| Elapse (ms : Z)
| Fire (n : nat)
| Begin.

(** A list less its [n]-th element. *)
Fixpoint drop_nth {A} (n : nat) (l : list A) : list A :=
  match l, n with
  | [], _ => []
  | _ :: rest, O => rest
  | x :: rest, S n' => x :: drop_nth n' rest
  end.

Section Serial.

Variable config : Config.
Variable env : Env.

(** One input, handled to its end.  Time does not run backwards; a timer
    fires when it is due, no earlier, and is then disarmed; a started job runs
    when it gets its turn, oldest first. *)
Definition deliver (i : Input) (w : World) : World :=
  match i with
  | Enable session => snd (run env (enable config session) w)
  | Disable session => snd (run env (disable config session) w)
  | Incoming session => snd (run env (onMessage session) w)
  | Ready => snd (run env (onReady config) w)
  | Elapse ms => if 0 <=? ms then set_now (clock w + ms) w else w
  | Fire n =>
      match nth_error (timers w) n with
      | Some t =>
          if t_due t <=? clock w
          then snd (run env (perform config (t_job t))
                        (set_timers (drop_nth n (timers w)) w))
          else w
      | None => w
      end
  | Begin =>
      match started w with
      | job :: rest => snd (run env (perform config job) (set_started rest w))
      | [] => w
      end
  end.

(** Inputs handled one after the other. *)
Definition serve (inputs : list Input) (w : World) : World :=
  fold_left (fun w' i => deliver i w') inputs w.

End Serial.

(** ** The vocabulary of the properties *)

(** *** The calls a program makes *)

(** [within P p]: every call the program [p] can make satisfies [P]. *)
Inductive within (P : forall R, Cmd R -> Prop) {A : Type} : Prog A -> Prop :=
| within_Ret (a : A) : within P (Ret a)
| within_Throw (e : Err) : within P (Throw e)
| within_Do R (c : Cmd R) (b : bool) (k : Outcome R -> Prog A) :
    P R c -> (forall o, within P (k o)) -> within P (Do c b k).

(** The calls that insert no session. *)
Definition insertsNoUser R (c : Cmd R) : Prop :=
  match c with
  | CreateUser _ _ _ _ _ => False
  | _ => True
  end.

(** The calls that leave the session table alone. *)
Definition writesNoUser R (c : Cmd R) : Prop :=
  match c with
  | CreateUser _ _ _ _ _ | RemoveUsers _ => False
  | _ => True
  end.

(** The calls that arm no timer. *)
Definition armsNoTimer R (c : Cmd R) : Prop :=
  match c with
  | SetTimeout _ _ => False
  | _ => True
  end.

(** The calls that do not sleep a negative time. *)
Definition sleepsForward R (c : Cmd R) : Prop :=
  match c with
  | Sleep ms => 0 <= ms
  | _ => True
  end.

(** Every call. *)
Definition anyCall R (c : Cmd R) : Prop := True.

(** *** How a world stands to an earlier one *)

(** The sessions of [w'] are sessions of [w], in the same order. *)
Definition fewerUsers (w w' : World) : Prop :=
  exists f, users w' = filter f (users w).

(** The same sessions. *)
Definition sameUsers (w w' : World) : Prop := users w' = users w.

(** The same timers. *)
Definition sameTimers (w w' : World) : Prop := timers w' = timers w.

(** The timers of [w] are still armed in [w'], which may have more. *)
Definition moreTimers (w w' : World) : Prop :=
  exists l, timers w' = (timers w ++ l)%list.

(** The same connections. *)
Definition sameBots (w w' : World) : Prop := bots w' = bots w.

(** The clock has not gone back. *)
Definition later (w w' : World) : Prop := clock w <= clock w'.

(** Only the log may differ. *)
Definition untouched (w w' : World) : Prop :=
  users w' = users w /\ userSeq w' = userSeq w /\ messages w' = messages w /\
  messageSeq w' = messageSeq w /\ clock w' = clock w /\ bots w' = bots w /\
  timers w' = timers w /\ started w' = started w /\ effects w' = effects w.

(** *** Sessions *)

(** At most one session per user. *)
Definition oneSessionPerUser (w : World) : Prop := NoDup (map u_userId (users w)).

(** The sessions of a group. *)
Definition sessionsIn (guildId : GuildId) (w : World) : list BurnAfterReadingUser :=
  filter (user_matches (byGuild guildId)) (users w).

(** No group above the maximum. *)
Definition withinCapacity (config : Config) (w : World) : Prop :=
  forall guildId, Z.of_nat (List.length (sessionsIn guildId w)) <= maxUsers config.

(** The two permission checks of [enable], taken together. *)
Definition permitted (env : Env) (session : Session) (w : World) : Prop :=
  fst (run env (checkBotPermission session) w) = Resolved true /\
  fst (run env (checkUserRole session) w) = Resolved true.

(** The session [enable] writes. *)
Definition newSession (config : Config) (session : Session) (guildId : GuildId)
    (w : World)
  : BurnAfterReadingUser :=
  mkUser (userSeq w) (s_userId session) guildId (s_channelId session)
         (clock w) (clock w + maxDuration config * 1000).

(** No session of the user and group of [r] is on record. *)
Definition gone (r : BurnAfterReadingUser) (w : World) : Prop :=
  forall r', In r' (users w) ->
             u_userId r' = u_userId r -> u_guildId r' = u_guildId r -> False.

(** A timer for the expiry of [r] is armed, due at the expiry. *)
Definition armedFor (r : BurnAfterReadingUser) (bot : Bot) (w : World) : Prop :=
  exists delay,
    0 < delay /\
    In (mkTimer (u_expiresAt r) delay
                (JExpire (u_userId r) (u_guildId r) (u_channelId r) bot))
       (timers w).

(** *** The ledger

    The store gives each new row the next id: the rows of the ledger stand
    in ascending id, which is the order they were captured in, and no two
    share an id. *)

(** Rows in strictly ascending id. *)
Definition ascending (l : list BurnAfterReadingMessage) : Prop :=
  StronglySorted Z.lt (map m_id l).

(** The ledger stands in ascending id and below the next id to give. *)
Definition ledger_ok (w : World) : Prop :=
  ascending (messages w) /\ Forall (fun r => m_id r < messageSeq w) (messages w).

(** The row the listener on [message] writes for an event. *)
Definition capturedRow (w : World) (session : Session) (messageId : MessageId)
  : BurnAfterReadingMessage :=
  mkMessage (messageSeq w) messageId (s_userId session) (stored (s_guildId session))
            (s_channelId session) (clock w).

(** The ledger less the rows of the given ids. *)
Definition without (ids : list Z) (l : list BurnAfterReadingMessage)
  : list BurnAfterReadingMessage :=
  filter (fun r => negb (existsb (Z.eqb (m_id r)) ids)) l.

(** *** What was done to the outside *)

(** What was done to the outside between two worlds. *)
Definition since (w w' : World) : list Effect :=
  skipn (List.length (effects w)) (effects w').

(** The deletions attempted, in order: connection, channel, message. *)
Definition targets (es : list Effect) : list (Bot * ChannelId * MessageId) :=
  flat_map (fun e => match e with
                     | EDelete b c m _ => [(b, c, m)]
                     | _ => []
                     end) es.

(** The pauses taken, in order. *)
Definition sleeps (es : list Effect) : list Z :=
  flat_map (fun e => match e with
                     | ESleep ms => [ms]
                     | _ => []
                     end) es.

(** The messages sent, in order: connection, channel, text. *)
Definition sends (es : list Effect) : list (Bot * ChannelId * string) :=
  flat_map (fun e => match e with
                     | ESend b c t _ => [(b, c, t)]
                     | _ => []
                     end) es.

(** The deletion attempts among some effects, with their outcomes. *)
Definition deletions (es : list Effect) : list Effect :=
  filter (fun e => match e with
                   | EDelete _ _ _ _ => true
                   | _ => false
                   end) es.

(** *** What a burn leaves behind *)

(** The deletion attempt on one row, with how it came out. *)
Definition attempt (bot : Bot) (m : BurnAfterReadingMessage) (o : Outcome unit)
  : Effect :=
  EDelete bot (m_channelId m) (m_messageId m) (resolved o).

(** The deletion attempts on the rows of a batch, with their outcomes. *)
Fixpoint attempts (bot : Bot) (ms : list BurnAfterReadingMessage)
    (outs : list (Outcome unit)) : list Effect :=
  match ms, outs with
  | m :: ms', o :: outs' => attempt bot m o :: attempts bot ms' outs'
  | _, _ => []
  end.

(** A pause of [gap] between each two effects in a row, none after the last. *)
Fixpoint paced (gap : Z) (es : list Effect) : list Effect :=
  match es with
  | [] => []
  | e :: rest =>
      match rest with
      | [] => [e]
      | _ :: _ => e :: ESleep gap :: paced gap rest
      end
  end.

(** What the loop logs for one row. *)
Definition recallLog (m : BurnAfterReadingMessage) (o : Outcome unit) : LogEntry :=
  match o with
  | Resolved _ => mkLog LInfo ("已撤回消息 " ++ m_messageId m) None
  | Rejected e => mkLog LWarn ("撤回消息 " ++ m_messageId m ++ " 失败:") (Some e)
  end.

(** What the loop logs for the rows of a batch. *)
Fixpoint recallLogs (ms : list BurnAfterReadingMessage)
    (outs : list (Outcome unit)) : list LogEntry :=
  match ms, outs with
  | m :: ms', o :: outs' => recallLog m o :: recallLogs ms' outs'
  | _, _ => []
  end.

(** The ids of the rows whose deletion succeeded. *)
Fixpoint removed (ms : list BurnAfterReadingMessage)
    (outs : list (Outcome unit)) : list Z :=
  match ms, outs with
  | m :: ms', o :: outs' =>
      if resolved o then m_id m :: removed ms' outs' else removed ms' outs'
  | _, _ => []
  end.

(** The world after the loop went over [ms] with the outcomes [outs]. *)
Definition recalled (bot : Bot) (gap : Z) (ms : list BurnAfterReadingMessage)
    (outs : list (Outcome unit)) (w w' : World) : Prop :=
  users w' = users w /\ userSeq w' = userSeq w /\
  messages w' = without (removed ms outs) (messages w) /\
  messageSeq w' = messageSeq w /\
  clock w' = clock w + gap * Z.of_nat (Nat.pred (List.length ms)) /\
  bots w' = bots w /\ timers w' = timers w /\ started w' = started w /\
  effects w' = (effects w ++ paced gap (attempts bot ms outs))%list /\
  logs w' = (logs w ++ recallLogs ms outs)%list.

(** The world after [batchRecallMessages] went over the rows [ms]: the grace
    period, the paced attempts, the closing notice sent to [channelId] with
    the answer [r]. *)
Definition burnt (config : Config) (userId : UserId) (channelId : ChannelId)
    (bot : Bot) (ms : list BurnAfterReadingMessage) (outs : list (Outcome unit))
    (r : Outcome (list MessageId)) (w w' : World) : Prop :=
  users w' = users w /\ userSeq w' = userSeq w /\
  messages w' = without (removed ms outs) (messages w) /\
  messageSeq w' = messageSeq w /\
  clock w' = clock w + recallDelay config * 1000
             + batchRecallInterval config * 1000 * Z.of_nat (Nat.pred (List.length ms)) /\
  bots w' = bots w /\ timers w' = timers w /\ started w' = started w /\
  effects w' =
    (effects w ++ ESleep (recallDelay config * 1000)
       :: paced (batchRecallInterval config * 1000) (attempts bot ms outs)
       ++ [ESend bot channelId "感谢使用阅后即焚" r])%list /\
  logs w' =
    (logs w ++ mkLog LInfo ("开始批量撤回用户 " ++ userId ++ " 的 "
                            ++ show (Z.of_nat (List.length ms)) ++ " 条消息") None
       :: recallLogs ms outs
       ++ [mkLog LInfo ("用户 " ++ userId ++ " 的批量撤回已完成") None])%list.

(** *** Replies *)

(** [part] occurs in [text]. *)
Definition mentions (text part : string) : Prop :=
  exists before after, text = before ++ part ++ after.

(** Whether [part] occurs in [text], by trying every position. *)
Fixpoint occursb (part text : string) : bool :=
  String.prefix part text ||
  match text with
  | EmptyString => false
  | String _ rest => occursb part rest
  end.

(** *** Roles *)

(** The management level of a role: the owner above the administrators,
    the administrators above the plain members. *)
Definition rank (r : GroupRole) : Z :=
  match r with
  | member => 0
  | admin => 1
  | owner => 2
  end.

(** The event comes from a group in which the platform tells the role of
    the sender and that of the bot, and the bot's is the higher. *)
Definition outranks (env : Env) (session : Session) (w : World) : Prop :=
  exists guildId userRole botRole,
    truthy (s_guildId session) = Some guildId /\
    getGroupMemberInfo env w guildId (s_userId session) = Resolved userRole /\
    getGroupMemberInfo env w guildId (s_bot session) = Resolved botRole /\
    rank userRole < rank botRole.

(** *** Closing and expiry *)

(** The deletion a burn attempts for a row of the ledger. *)
Definition targetOf (bot : Bot) (m : BurnAfterReadingMessage)
  : Bot * ChannelId * MessageId :=
  (bot, m_channelId m, m_messageId m).

(** The sessions less those of a user in a group. *)
Definition closedFor (userId : UserId) (guildId : GuildId)
    (l : list BurnAfterReadingUser) : list BurnAfterReadingUser :=
  filter (keep (user_matches (byUserGuild userId guildId))) l.

(** The row written for a notice the platform answered with [ids], in the
    world [w] in which the insert is made: none when the platform gave no id
    or the store rejects the insert. *)
Definition noticeRow (env : Env) (ids : list MessageId) (userId : UserId)
    (guildId : GuildId) (channelId : ChannelId) (w : World)
  : list BurnAfterReadingMessage :=
  match ids, create env w with
  | first :: _, Resolved _ =>
      [mkMessage (messageSeq w) first userId guildId channelId (clock w)]
  | _, _ => []
  end.

(** The notice of the closing command. *)
Definition closingNotice (config : Config) : string :=
  "阅后即焚模式已关闭。消息将在 " ++ show (recallDelay config) ++ " 秒后被销毁".

(** The notice of an expiry. *)
Definition expiryNotice (config : Config) (userId : UserId) : string :=
  "用户 " ++ userId ++ " 的阅后即焚已过期，消息将在 "
  ++ show (recallDelay config) ++ " 秒后销毁".

(** The line the callback of an expiry logs first. *)
Definition expiryLine (userId : UserId) (guildId : GuildId) : LogEntry :=
  mkLog LInfo ("用户 " ++ userId ++ " 在群组 " ++ guildId ++ " 的阅后即焚模式已过期") None.

(** *** Deletions and the ledger *)

(** The calls that delete nothing on the platform. *)
Definition deletesNothing R (c : Cmd R) : Prop :=
  match c with
  | DeleteMessage _ _ _ => False
  | _ => True
  end.

(** [w'] has the effects of [w] and then some, none of them a deletion. *)
Definition noDeletion (w w' : World) : Prop :=
  exists l, effects w' = (effects w ++ l)%list /\ targets l = [].

(** The ledger of [w] holds a row for the message a deletion targets, in
    the channel it targets. *)
Definition held (w : World) (t : Bot * ChannelId * MessageId) : Prop :=
  exists r, In r (messages w) /\ m_channelId r = snd (fst t) /\ m_messageId r = snd t.

(** The message a deletion targets is one the plugin sent among the effects
    [es], to the channel the deletion targets: the platform answered the send
    with the id of that message. *)
Definition justSent (es : list Effect) (t : Bot * ChannelId * MessageId) : Prop :=
  exists b text more, In (ESend b (snd (fst t)) text (Resolved (snd t :: more))) es.

(** A program that adds no row to the ledger and deletes only messages the
    ledger holds a row for. *)
Definition tidy (env : Env) {A} (p : Prog A) : Prop :=
  forall w,
    (exists l, effects (snd (run env p w)) = (effects w ++ l)%list) /\
    incl (messages (snd (run env p w))) (messages w) /\
    forall t, In t (targets (since w (snd (run env p w)))) -> held w t.

(** *** What is sent *)

(** The one message a burn sends. *)
Definition thanks : string := "感谢使用阅后即焚".

(** The calls that send nothing but the thanks of a burn. *)
Definition sendsOnlyThanks R (c : Cmd R) : Prop :=
  match c with
  | SendMessage _ _ text => text = thanks
  | _ => True
  end.

(** [w'] has the effects of [w] and then some, the thanks of a burn the
    only messages sent among them. *)
Definition onlyThanks (w w' : World) : Prop :=
  exists l, effects w' = (effects w ++ l)%list /\
            Forall (fun s => snd s = thanks) (sends l).

(** ** Worlds and platforms to run the plugin against *)

(** How many messages have been sent. *)
Definition sentSoFar (w : World) : Z :=
  Z.of_nat (List.length (filter (fun e => match e with ESend _ _ _ _ => true | _ => false end)
                                (effects w))).

(** Everybody is a plain member but the bot, which is an administrator; no
    group has a name; every send answers one fresh message id ([n0], [n1],
    ...); every deletion succeeds; the store accepts every insert. *)
Definition kindEnv : Env :=
  mkEnv (fun _ _ u => Resolved (if String.eqb u "bot" then admin else member))
        (fun _ _ _ => Resolved None)
        (fun w _ _ _ => Resolved ["n" ++ show (sentSoFar w)])
        (fun _ _ _ _ => Resolved tt)
        (fun _ => Resolved tt).

(** A user's message [messageId] in the channel [c1] of a group. *)
Definition alice (guild : string) (messageId : string) : Session :=
  mkSession "alice" (Some guild) "c1" (Some messageId) "bot".

(** Another user's. *)
Definition bob (guild : string) (messageId : string) : Session :=
  mkSession "bob" (Some guild) "c1" (Some messageId) "bot".

(** A ledger row of the first user in the group [g1]. *)
Definition row (i : Z) (messageId : MessageId) (channelId : ChannelId)
  : BurnAfterReadingMessage :=
  mkMessage i messageId "alice" "g1" channelId 1000.

(** A world in which one user has an active session and nothing captured. *)
Definition justEnabled : World :=
  mkWorld [mkUser 1 "alice" "g1" "c1" 1000 3601000] 2 [] 1 2000 ["bot"] [] [] [] [].

(** Five captured messages of one user in one group. *)
Definition fiveCaptured : World :=
  mkWorld [mkUser 1 "alice" "g1" "c1" 1000 3601000] 2
          [row 1 "m1" "c1"; row 2 "m2" "c1"; row 3 "m3" "c1"; row 4 "m4" "c1";
           row 5 "m5" "c1"] 6
          2000 ["bot"] [] [] [] [].

(** The user has a session in [g2] and asks for one in [g1]. *)
Definition enabledElsewhere : World :=
  mkWorld [mkUser 1 "alice" "g2" "c2" 1000 3601000] 2 [] 1 2000 ["bot"] [] [] [] [].

(** A restart ten seconds after the expiry of one session and a hundred
    seconds before the expiry of another. *)
Definition afterRestart (bs : list Bot) : World :=
  mkWorld [mkUser 1 "alice" "g1" "c1" 1000 3601000;
           mkUser 2 "bob" "g2" "c2" 111000 3711000] 3
          [row 1 "m1" "c1"] 2
          3611000 bs [] [] [] [].

(** A platform on which the deletion of the message [m3] fails and
    everything else goes well. *)
Definition thirdFails : Env :=
  mkEnv (getGroupMemberInfo kindEnv) (getGuild kindEnv) (sendMessage kindEnv)
        (fun _ _ _ m => if String.eqb m "m3" then Rejected "no such message"
                        else Resolved tt)
        (create kindEnv).

(** A platform on which the bot is a plain member of every group. *)
Definition plainBot : Env :=
  mkEnv (fun _ _ _ => Resolved member) (getGuild kindEnv) (sendMessage kindEnv)
        (deleteMessage kindEnv) (create kindEnv).

(** Two commands in flight, each resumed in turn, once per [await]. *)
Definition turnAbout : list nat :=
  [0; 1; 0; 1; 0; 1; 0; 1; 0; 1; 0; 1; 0; 1; 0; 1; 0; 1]%nat.

(** A platform that is out of reach for sending; everything else as on the
    kind one. *)
Definition sendFails : Env :=
  mkEnv (getGroupMemberInfo kindEnv) (getGuild kindEnv)
        (fun _ _ _ _ => Rejected "offline")
        (deleteMessage kindEnv) (create kindEnv).

(** A store that takes the first session and rejects every insert once a
    session is on record. *)
Definition storeFull : Env :=
  mkEnv (getGroupMemberInfo kindEnv) (getGuild kindEnv) (sendMessage kindEnv)
        (deleteMessage kindEnv)
        (fun w => match users w with
                  | [] => Resolved tt
                  | _ :: _ => Rejected "full"
                  end).

(** A world in which the session of the sample user has its timer armed and
    its expiry has come. *)
Definition expiryDue : World :=
  mkWorld [mkUser 1 "alice" "g1" "c1" 1000 3601000] 2 [row 1 "m1" "c1"] 2 3601000
          ["bot"] [mkTimer 3601000 3600000 (JExpire "alice" "g1" "c1" "bot")] [] [] [].

(** The sample user opens a session, closes it, opens another half an hour
    later, and the first session's hour comes. *)
Definition reopened : list Input :=
  [Enable (alice "g1" "m1"); Disable (alice "g1" "m2"); Begin;
   Elapse 1792000; Enable (alice "g1" "m3"); Elapse 1801000; Fire 0].

(** ** Laws of running *)

Section Laws.

Variable env : Env.

Lemma run_settle {R} (o : Outcome R) (w : World) : run env (settle o) w = (o, w).
Proof. destruct o; reflexivity. Qed.

Lemma run_await {R} (c : Cmd R) (w : World) : run env (await c) w = exec env c w.
Proof.
  unfold await; simpl. destruct (exec env c w) as [o w']. apply run_settle.
Qed.

Lemma run_call {R} (c : Cmd R) (w : World) : run env (call c) w = exec env c w.
Proof.
  unfold call; simpl. destruct (exec env c w) as [o w']. apply run_settle.
Qed.

Lemma run_bind {A B} (p : Prog A) (f : A -> Prog B) (w : World) :
  run env (bind p f) w =
  match run env p w with
  | (Resolved a, w') => run env (f a) w'
  | (Rejected e, w') => (Rejected e, w')
  end.
Proof.
  revert w. induction p as [a | e | R c b k IH]; intro w; simpl; try reflexivity.
  destruct (exec env c w) as [o w']. apply IH.
Qed.

Lemma run_try_catch {A} (p : Prog A) (h : Err -> Prog A) (w : World) :
  run env (try_catch p h) w =
  match run env p w with
  | (Resolved a, w') => (Resolved a, w')
  | (Rejected e, w') => run env (h e) w'
  end.
Proof.
  revert w. induction p as [a | e | R c b k IH]; intro w; simpl; try reflexivity.
  destruct (exec env c w) as [o w']. apply IH.
Qed.

(** Taking turns with nobody else is running to the end: a lone program
    resumed until it is finished ends where [run] ends. *)
Lemma run_advance {A} (p : Prog A) (w : World) :
  run env p w = let (p', w') := advance env p w in run env p' w'.
Proof.
  revert w. induction p as [a | e | R c b k IH]; intro w; simpl; try reflexivity.
  destruct b; simpl.
  - reflexivity.
  - destruct (exec env c w) as [o w']. apply IH.
Qed.

Lemma run_resume {A} (p : Prog A) (w : World) :
  run env p w = let (p', w') := resume env p w in run env p' w'.
Proof.
  destruct p as [a | e | R c b k]; try reflexivity.
  destruct b.
  - simpl. destruct (exec env c w) as [o w']. apply run_advance.
  - unfold resume. apply run_advance.
Qed.

(** A program that is alone and is resumed often enough comes to its end,
    in the world in which [run] ends. *)
Lemma lone_program_ends {A} (p : Prog A) : forall w,
  exists (n : nat) (p' : Prog A) (w' : World),
    interleave env (repeat O n) [p] w = ([p'], w') /\
    finished p' = true /\
    run env p' w' = run env p w.
Proof.
  assert (H : forall (q : Prog A) w,
             exists (n : nat) (p' : Prog A) (w' : World),
               (let (q1, w1) := advance env q w in
                interleave env (repeat O n) [q1] w1) = ([p'], w') /\
               finished p' = true /\
               run env p' w' = run env q w).
  { induction q as [a | e | R c b k IH]; intro w.
    - exists O, (Ret a), w. repeat split.
    - exists O, (Throw e), w. repeat split.
    - destruct b.
      + cbn [advance]. destruct (exec env c w) as [o w1] eqn:E.
        destruct (IH o w1) as [n [p' [w' (H1 & H2 & H3)]]].
        exists (S n), p', w'. cbn [repeat interleave resume_nth resume].
        rewrite E. destruct (advance env (k o) w1) as [q1 w2].
        split; [exact H1 |]. split; [exact H2 |]. simpl. rewrite E. exact H3.
      + cbn [advance]. destruct (exec env c w) as [o w1] eqn:E.
        destruct (IH o w1) as [n [p' [w' (H1 & H2 & H3)]]].
        exists n, p', w'. split; [exact H1 |]. split; [exact H2 |].
        simpl. rewrite E. exact H3. }
  intro w. destruct p as [a | e | R c b k].
  - exists O, (Ret a), w. repeat split.
  - exists O, (Throw e), w. repeat split.
  - destruct b.
    + destruct (exec env c w) as [o w1] eqn:E.
      destruct (H (k o) w1) as [n [p' [w' (H1 & H2 & H3)]]].
      exists (S n), p', w'. cbn [repeat interleave resume_nth resume].
      rewrite E. destruct (advance env (k o) w1) as [q1 w2].
      split; [exact H1 |]. split; [exact H2 |]. simpl. rewrite E. exact H3.
    + destruct (H (Do c false k) w) as [n [p' [w' (H1 & H2 & H3)]]].
      destruct n as [| n].
      * cbn [repeat interleave] in H1.
        destruct (advance env (Do c false k) w) as [q1 w2] eqn:E.
        injection H1 as -> ->.
        exists 1%nat, p', w'. cbn [repeat interleave resume_nth resume]. rewrite E.
        repeat split; assumption.
      * exists (S (S n)), p', w'.
        change (repeat O (S (S n))) with (O :: repeat O (S n)).
        cbn [interleave resume_nth resume].
        destruct (advance env (Do c false k) w) as [q1 w2] eqn:E.
        split; [exact H1 | split; assumption].
Qed.

End Laws.

(** ** Footprints

    [within P p]: every call [p] can make satisfies [P].  A relation between
    worlds that every such call respects then holds between the worlds
    before and after [run]. *)

Section Footprint.

Variable P : forall R, Cmd R -> Prop.

Lemma within_settle {R} (o : Outcome R) : within P (settle o).
Proof. destruct o; constructor. Qed.

Lemma within_await {R} (c : Cmd R) : P R c -> within P (await c).
Proof. intro H. constructor; [exact H | apply within_settle]. Qed.

Lemma within_call {R} (c : Cmd R) : P R c -> within P (call c).
Proof. intro H. constructor; [exact H | apply within_settle]. Qed.

Lemma within_dropped {R} (c : Cmd R) : P R c -> within P (dropped c).
Proof. intro H. constructor; [exact H | intro; constructor]. Qed.

Lemma within_detached {R} (c : Cmd R) (h : Err -> Prog unit) :
  P R c -> (forall e, within P (h e)) -> within P (detached c h).
Proof. intros H Hh. constructor; [exact H | intros [r | e]; [constructor | apply Hh]]. Qed.

Lemma within_bind {A B} (p : Prog A) (f : A -> Prog B) :
  within P p -> (forall a, within P (f a)) -> within P (bind p f).
Proof.
  intros Hp Hf. induction Hp; simpl; [apply Hf | constructor | constructor; auto].
Qed.

Lemma within_try_catch {A} (p : Prog A) (h : Err -> Prog A) :
  within P p -> (forall e, within P (h e)) -> within P (try_catch p h).
Proof.
  intros Hp Hh. induction Hp; simpl; [constructor | apply Hh | constructor; auto].
Qed.

Variable env : Env.
Variable Rel : World -> World -> Prop.
Hypothesis Rel_refl : forall w, Rel w w.
Hypothesis Rel_trans : forall w1 w2 w3, Rel w1 w2 -> Rel w2 w3 -> Rel w1 w3.
Hypothesis Rel_exec : forall R (c : Cmd R) w, P R c -> Rel w (snd (exec env c w)).

Lemma within_run {A} (p : Prog A) :
  within P p -> forall w, Rel w (snd (run env p w)).
Proof.
  induction 1 as [a | e | R c b k Hc Hk IH]; intro w; simpl; auto.
  specialize (Rel_exec R c w Hc).
  destruct (exec env c w) as [o w']; simpl in *.
  eapply Rel_trans; [exact Rel_exec | apply IH].
Qed.

End Footprint.

Lemma within_any (P : forall R, Cmd R -> Prop) :
  (forall R c, P R c) -> forall A (p : Prog A), within P p.
Proof.
  intros HP A p. induction p as [a | e | R c b k IH]; constructor; auto.
Qed.

(** Takes a program apart along its binds, handlers and branches and leaves
    the calls to [leaf]. *)
Ltac footprint_with leaf :=
  repeat first
    [ progress intros
    | solve [leaf]
    | apply within_Ret
    | apply within_Throw
    | apply within_bind
    | apply within_try_catch
    | apply within_await
    | apply within_call
    | apply within_dropped
    | apply within_detached
    | apply within_settle
    | apply within_Do
    | match goal with
      | |- within _ (match ?x with _ => _ end) => destruct x
      end ].

Ltac footprint := footprint_with ltac:(first [exact I | assumption | cbn; lia]).

Section Plugin_footprints.

Variable config : Config.

Lemma recallEach_within (P : forall R, Cmd R -> Prop) :
  (forall b c m, P _ (DeleteMessage b c m)) ->
  (forall l t e, P _ (Log l t e)) ->
  (forall q, P _ (RemoveMessages q)) ->
  P _ (Sleep (batchRecallInterval config * 1000)) ->
  forall rest n i bot, within P (recallEach config n i rest bot).
Proof.
  intros Hd Hl Hr Hs rest.
  induction rest as [| msg rest IH]; intros n i bot; cbn [recallEach].
  - constructor.
  - footprint_with ltac:(auto).
Qed.

Lemma batchRecallMessages_within (P : forall R, Cmd R -> Prop) :
  (forall b c m, P _ (DeleteMessage b c m)) ->
  (forall l t e, P _ (Log l t e)) ->
  (forall q, P _ (RemoveMessages q)) ->
  (forall q, P _ (GetMessages q)) ->
  (forall b c t, P _ (SendMessage b c t)) ->
  P _ (Sleep (batchRecallInterval config * 1000)) ->
  P _ (Sleep (recallDelay config * 1000)) ->
  forall u g c bot, within P (batchRecallMessages config u g c bot).
Proof.
  intros Hd Hl Hr Hg Hs Hi Hy u g c bot. unfold batchRecallMessages.
  footprint_with ltac:(first [apply recallEach_within; auto | auto]).
Qed.

Lemma burnAfterReading_within (P : forall R, Cmd R -> Prop) :
  (forall b c m, P _ (DeleteMessage b c m)) ->
  (forall l t e, P _ (Log l t e)) ->
  (forall q, P _ (RemoveMessages q)) ->
  (forall q, P _ (GetMessages q)) ->
  (forall b c t, P _ (SendMessage b c t)) ->
  (forall q, P _ (RemoveUsers q)) ->
  P _ (Sleep (batchRecallInterval config * 1000)) ->
  P _ (Sleep (recallDelay config * 1000)) ->
  forall u g c bot, within P (burnAfterReading config u g c bot).
Proof.
  intros Hd Hl Hr Hg Hs Hu Hi Hy u g c bot. unfold burnAfterReading.
  footprint_with ltac:(first [apply batchRecallMessages_within; auto | auto]).
Qed.

End Plugin_footprints.

(** ** Lists of rows *)

Lemma filter_all {A} (f : A -> bool) (l : list A) :
  (forall x, In x l -> f x = true) -> filter f l = l.
Proof.
  induction l as [| x l IH]; simpl; intro H; [reflexivity |].
  rewrite (H x (or_introl eq_refl)). f_equal. apply IH. intros y Hy. apply H. now right.
Qed.

Lemma filter_none {A} (f : A -> bool) (l : list A) :
  (forall x, In x l -> f x = false) -> filter f l = [].
Proof.
  induction l as [| x l IH]; simpl; intro H; [reflexivity |].
  rewrite (H x (or_introl eq_refl)). apply IH. intros y Hy. apply H. now right.
Qed.

Lemma filter_nil_none {A} (f : A -> bool) (l : list A) :
  filter f l = [] -> forall x, In x l -> f x = false.
Proof.
  intros H x Hx. destruct (f x) eqn:E; [| reflexivity].
  assert (Hin : In x (filter f l)) by (apply filter_In; auto).
  rewrite H in Hin. destruct Hin.
Qed.

Lemma filter_twice {A} (f g : A -> bool) (l : list A) :
  filter f (filter g l) = filter (fun x => g x && f x) l.
Proof.
  induction l as [| x l IH]; simpl; [reflexivity |].
  destruct (g x); simpl; [destruct (f x) |]; rewrite IH; reflexivity.
Qed.

Lemma NoDup_map_filter {A B} (k : A -> B) (f : A -> bool) (l : list A) :
  NoDup (map k l) -> NoDup (map k (filter f l)).
Proof.
  induction l as [| x l IH]; simpl; intro H; [constructor |].
  inversion H as [| y ys Hnotin Hnd]; subst.
  destruct (f x); simpl; [constructor |]; auto.
  intro Hin. apply Hnotin. apply in_map_iff in Hin. destruct Hin as [z [Hz Hin]].
  apply filter_In in Hin. apply in_map_iff. exists z. tauto.
Qed.

Lemma filter_length_le' {A} (f g : A -> bool) (l : list A) :
  (List.length (filter f (filter g l)) <= List.length (filter f l))%nat.
Proof.
  induction l as [| x l IH]; simpl; [lia |].
  destruct (g x); simpl; destruct (f x); simpl; lia.
Qed.

(** ** How the calls move the world *)

Lemma fewerUsers_refl w : fewerUsers w w.
Proof. exists (fun _ => true). symmetry. apply filter_all. reflexivity. Qed.

Lemma fewerUsers_same w w' : users w' = users w -> fewerUsers w w'.
Proof.
  intro H. exists (fun _ => true). rewrite H. symmetry. apply filter_all. reflexivity.
Qed.

Lemma fewerUsers_trans w1 w2 w3 :
  fewerUsers w1 w2 -> fewerUsers w2 w3 -> fewerUsers w1 w3.
Proof.
  intros [f Hf] [g Hg]. exists (fun x => f x && g x).
  rewrite Hg, Hf. apply filter_twice.
Qed.

Lemma moreTimers_refl w : moreTimers w w.
Proof. exists []. symmetry. apply app_nil_r. Qed.

Lemma moreTimers_same w w' : timers w' = timers w -> moreTimers w w'.
Proof. intro H. exists []. rewrite H. symmetry. apply app_nil_r. Qed.

Lemma moreTimers_trans w1 w2 w3 :
  moreTimers w1 w2 -> moreTimers w2 w3 -> moreTimers w1 w3.
Proof.
  intros [l Hl] [l' Hl']. exists (l ++ l')%list. rewrite Hl', Hl. symmetry. apply app_assoc.
Qed.

Section Moves.

Variable env : Env.

Ltac by_call c w :=
  destruct c; simpl; try contradiction;
  try match goal with
      | |- context [create env w] => destruct (create env w); simpl
      end.

Lemma exec_fewerUsers R (c : Cmd R) w :
  insertsNoUser R c -> fewerUsers w (snd (exec env c w)).
Proof.
  by_call c w; intros _;
    first [apply fewerUsers_same; reflexivity | eexists; reflexivity].
Qed.

Lemma exec_sameUsers R (c : Cmd R) w :
  writesNoUser R c -> sameUsers w (snd (exec env c w)).
Proof. by_call c w; intros _; reflexivity. Qed.

Lemma exec_sameTimers R (c : Cmd R) w :
  armsNoTimer R c -> sameTimers w (snd (exec env c w)).
Proof. by_call c w; intros _; reflexivity. Qed.

Lemma exec_moreTimers R (c : Cmd R) w :
  anyCall R c -> moreTimers w (snd (exec env c w)).
Proof.
  by_call c w; intros _;
    first [apply moreTimers_same; reflexivity | eexists; reflexivity].
Qed.

Lemma exec_sameBots R (c : Cmd R) w :
  anyCall R c -> sameBots w (snd (exec env c w)).
Proof. by_call c w; intros _; reflexivity. Qed.

Lemma exec_later R (c : Cmd R) w :
  sleepsForward R c -> later w (snd (exec env c w)).
Proof. unfold later. by_call c w; intros H; lia. Qed.

Lemma run_fewerUsers A (p : Prog A) w :
  within insertsNoUser p -> fewerUsers w (snd (run env p w)).
Proof.
  intro H.
  exact (within_run insertsNoUser env fewerUsers fewerUsers_refl fewerUsers_trans
                    exec_fewerUsers p H w).
Qed.

Lemma run_sameUsers A (p : Prog A) w :
  within writesNoUser p -> users (snd (run env p w)) = users w.
Proof.
  intro H. refine (within_run writesNoUser env sameUsers _ _ exec_sameUsers p H w);
    unfold sameUsers; congruence.
Qed.

Lemma run_sameTimers A (p : Prog A) w :
  within armsNoTimer p -> timers (snd (run env p w)) = timers w.
Proof.
  intro H. refine (within_run armsNoTimer env sameTimers _ _ exec_sameTimers p H w);
    unfold sameTimers; congruence.
Qed.

Lemma run_moreTimers A (p : Prog A) w : moreTimers w (snd (run env p w)).
Proof.
  refine (within_run anyCall env moreTimers moreTimers_refl moreTimers_trans
                     exec_moreTimers p _ w).
  apply within_any. exact (fun _ _ => I).
Qed.

Lemma run_sameBots A (p : Prog A) w : bots (snd (run env p w)) = bots w.
Proof.
  refine (within_run anyCall env sameBots _ _ exec_sameBots p _ w);
    unfold sameBots; try congruence.
  apply within_any. exact (fun _ _ => I).
Qed.

Lemma run_later A (p : Prog A) w :
  within sleepsForward p -> clock w <= clock (snd (run env p w)).
Proof.
  intro H. refine (within_run sleepsForward env later _ _ exec_later p H w);
    unfold later; intros; lia.
Qed.

End Moves.

(** ** The loop of a burn *)

Lemma without_nil l : without [] l = l.
Proof. apply filter_all. reflexivity. Qed.

Lemma without_cons i ids l :
  without ids (filter (keep (message_matches (byId i))) l) = without (i :: ids) l.
Proof.
  unfold without. rewrite filter_twice. apply filter_ext. intro r.
  unfold keep, message_matches, byId, holds; simpl.
  rewrite !andb_true_r, negb_orb. rewrite (Z.eqb_sym (m_id r) i). reflexivity.
Qed.

Lemma without_app a b l : without a (without b l) = without (b ++ a) l.
Proof.
  unfold without. rewrite filter_twice. apply filter_ext. intro r.
  rewrite existsb_app, negb_orb. reflexivity.
Qed.

Lemma removed_cons m ms o outs :
  removed (m :: ms) (o :: outs) = (removed [m] [o] ++ removed ms outs)%list.
Proof. simpl. destruct (resolved o); reflexivity. Qed.

Lemma recalled_nil bot gap w : recalled bot gap [] [] w w.
Proof.
  unfold recalled; simpl. rewrite without_nil, !app_nil_r.
  repeat split; lia.
Qed.

Section Burn.

Variable config : Config.
Variable env : Env.

Let gap := batchRecallInterval config * 1000.

(** The [try] block on one row: the deletion is attempted; when it succeeds
    the row leaves the ledger, when it fails a warning is logged; either way
    the block ends normally. *)
Lemma recallOne_run msg bot w :
  exists o,
    o = deleteMessage env w bot (m_channelId msg) (m_messageId msg) /\
    fst (run env (recallOne msg bot) w) = Resolved tt /\
    recalled bot gap [msg] [o] w (snd (run env (recallOne msg bot) w)).
Proof.
  eexists. split; [reflexivity |].
  unfold recallOne. rewrite run_try_catch, run_bind, run_await. simpl exec.
  destruct (deleteMessage env w bot (m_channelId msg) (m_messageId msg)) as [[] | e];
    cbn -[String.append].
  - unfold recalled; cbn -[String.append].
    repeat split; try lia.
    rewrite <- without_cons. symmetry. apply without_nil.
  - unfold recalled; cbn -[String.append].
    repeat split; try lia. symmetry. apply without_nil.
Qed.

(** The loop over the rows that are left, [index] being the position of the
    first of them: every row gets its attempt, in order, whatever became of
    the rows before it. *)
Lemma recallEach_run rest : forall n i bot w,
  n = i + Z.of_nat (List.length rest) ->
  exists outs,
    List.length outs = List.length rest /\
    fst (run env (recallEach config n i rest bot) w) = Resolved tt /\
    recalled bot gap rest outs w (snd (run env (recallEach config n i rest bot) w)).
Proof.
  induction rest as [| msg rest IH]; intros n i bot w Hn.
  - exists []. simpl. split; [reflexivity | split; [reflexivity | apply recalled_nil]].
  - cbn [recallEach]. rewrite run_bind.
    destruct (recallOne_run msg bot w) as [o [_ [H1 H2]]].
    destruct (run env (recallOne msg bot) w) as [r w1]. simpl in H1, H2. subst r.
    rewrite run_bind.
    destruct rest as [| m2 rest2].
    + assert (Hi : (i <? n - 1) = false) by (apply Z.ltb_ge; simpl in Hn; lia).
      rewrite Hi. simpl. exists [o]. auto.
    + assert (Hi : (i <? n - 1) = true)
        by (apply Z.ltb_lt; cbn [List.length] in Hn; lia).
      rewrite Hi, run_await. cbn [exec].
      set (w2 := add_effect (ESleep (batchRecallInterval config * 1000))
                            (set_now (clock w1 + batchRecallInterval config * 1000) w1)).
      destruct (IH n (i + 1) bot w2) as [outs [Hlen [Hr Hrec]]].
      { cbn [List.length] in *. lia. }
      destruct (run env (recallEach config n (i + 1) (m2 :: rest2) bot) w2) as [r w'].
      simpl in Hr, Hrec. subst r.
      destruct outs as [| o2 outs2]; [discriminate Hlen |].
      exists (o :: o2 :: outs2). split; [simpl in *; lia |]. split; [reflexivity |].
      simpl snd.
      destruct H2 as (A1 & A2 & A3 & A4 & A5 & A6 & A7 & A8 & A9 & A10).
      destruct Hrec as (B1 & B2 & B3 & B4 & B5 & B6 & B7 & B8 & B9 & B10).
      subst w2. cbn [users userSeq messages messageSeq clock bots timers started
                     effects logs add_effect set_now] in *.
      unfold recalled. repeat split; try congruence.
      * rewrite B3, A3, without_app. rewrite <- removed_cons. reflexivity.
      * rewrite B5, A5. fold gap. cbn [List.length Nat.pred].
        rewrite Nat2Z.inj_succ, Z.mul_succ_r. simpl. lia.
      * rewrite B9, A9. fold gap. cbn [attempts paced].
        rewrite <- !app_assoc. reflexivity.
      * rewrite B10, A10. cbn [recallLogs]. rewrite <- app_assoc. reflexivity.
Qed.

(** [batchRecallMessages] ends normally; with no row of the user and group
    in the ledger it logs that and does nothing else. *)
Lemma batchRecallMessages_run userId guildId channelId bot w :
  let ms := filter (message_matches (byUserGuild userId guildId)) (messages w) in
  let end_ := run env (batchRecallMessages config userId guildId channelId bot) w in
  fst end_ = Resolved tt /\
  match ms with
  | [] =>
      snd end_ =
      add_log (mkLog LInfo ("用户 " ++ userId ++ " 在群组 " ++ guildId
                            ++ " 中没有需要撤回的消息") None) w
  | _ :: _ =>
      exists outs r,
        List.length outs = List.length ms /\
        burnt config userId channelId bot ms outs r w (snd end_)
  end.
Proof.
  intros ms end_. subst end_. unfold batchRecallMessages.
  rewrite run_try_catch, run_bind, run_await. cbn [exec]. fold ms.
  destruct ms as [| m ms'] eqn:Hms.
  - rewrite run_call. cbn [exec]. split; reflexivity.
  - rewrite <- Hms. rewrite run_bind, run_call. cbn [exec].
    rewrite run_bind, run_await. cbn [exec].
    set (w1 := add_effect _ _).
    rewrite run_bind.
    destruct (recallEach_run ms (Z.of_nat (List.length ms)) 0 bot w1 eq_refl)
      as [outs [Hlen [Hr Hrec]]].
    destruct (run env (recallEach config (Z.of_nat (List.length ms)) 0 ms bot) w1)
      as [r w2].
    simpl in Hr, Hrec. subst r.
    rewrite run_bind. cbn [dropped run exec].
    rewrite run_call. cbn [exec fst snd].
    split; [reflexivity |].
    rewrite Hms in *. 
    exists outs, (sendMessage env w2 bot channelId "感谢使用阅后即焚").
    split; [exact Hlen |].
    destruct Hrec as (B1 & B2 & B3 & B4 & B5 & B6 & B7 & B8 & B9 & B10).
    subst w1. cbn [users userSeq messages messageSeq clock bots timers started
                   effects logs add_effect set_now add_log] in *.
    unfold burnt.
    cbn [users userSeq messages messageSeq clock bots timers started
         effects logs add_effect set_now add_log].
    repeat split; try congruence.
    + rewrite B5. fold gap. lia.
    + rewrite B9. fold gap. rewrite <- !app_assoc. reflexivity.
    + rewrite B10, Hms. rewrite <- !app_assoc. reflexivity.
Qed.

(** [burnAfterReading] removes the session of the user in the group and
    hands over to [batchRecallMessages]; it ends normally. *)
Lemma burnAfterReading_run userId guildId channelId bot w :
  run env (burnAfterReading config userId guildId channelId bot) w =
  run env (batchRecallMessages config userId guildId channelId bot)
      (set_users (filter (keep (user_matches (byUserGuild userId guildId))) (users w)) w).
Proof.
  unfold burnAfterReading. rewrite run_try_catch, run_bind, run_await. cbn [exec].
  set (w1 := set_users _ w).
  pose proof (batchRecallMessages_run userId guildId channelId bot w1) as [H _].
  destruct (run env (batchRecallMessages config userId guildId channelId bot) w1)
    as [r w2].
  simpl in H. subst r. reflexivity.
Qed.

End Burn.

(** ** The ledger's keys *)

Lemma ascending_filter f l : ascending l -> ascending (filter f l).
Proof.
  unfold ascending. induction l as [| x l IH]; simpl; intro H; [constructor |].
  inversion H as [| y ys Hs Hall]; subst.
  destruct (f x); simpl; auto. constructor; auto.
  rewrite Forall_forall in *. intros z Hz. apply Hall.
  apply in_map_iff in Hz. destruct Hz as [r [Hr Hin]]. apply filter_In in Hin.
  apply in_map_iff. exists r. tauto.
Qed.

Lemma ascending_snoc l r :
  ascending l -> Forall (fun x => m_id x < m_id r) l -> ascending (l ++ [r]).
Proof.
  unfold ascending. induction l as [| x l IH]; simpl; intros H Hlt.
  - repeat constructor.
  - inversion H as [| y ys Hs Hall]; subst. inversion Hlt; subst.
    constructor; auto. rewrite map_app, Forall_app. split; auto.
    repeat constructor. assumption.
Qed.

Lemma ascending_NoDup l : ascending l -> NoDup (map m_id l).
Proof.
  unfold ascending. induction l as [| x l IH]; simpl; intro H; [constructor |].
  inversion H as [| y ys Hs Hall]; subst. constructor; auto.
  intro Hin. rewrite Forall_forall in Hall. apply Hall in Hin. lia.
Qed.

Lemma ledger_ok_empty t bs : ledger_ok (emptyWorld t bs).
Proof. split; constructor. Qed.

Lemma exec_ledger_ok env R (c : Cmd R) w :
  ledger_ok w -> ledger_ok (snd (exec env c w)).
Proof.
  intros [Ha Hb].
  destruct c; simpl; try (split; assumption);
    try match goal with
        | |- context [create env w] =>
            destruct (create env w); simpl; try (split; assumption)
        end.
  - split; simpl.
    + apply ascending_snoc; assumption.
    + rewrite Forall_app. split.
      * eapply Forall_impl; [| exact Hb]. simpl. intros; lia.
      * repeat constructor. simpl. lia.
  - split; simpl.
    + apply ascending_filter; assumption.
    + rewrite Forall_forall in *. intros row Hr. apply filter_In in Hr. apply Hb. tauto.
Qed.

Lemma run_ledger_ok env A (p : Prog A) w :
  ledger_ok w -> ledger_ok (snd (run env p w)).
Proof.
  revert w. induction p as [a | e | R c b k IH]; intros w H; simpl; auto.
  pose proof (@exec_ledger_ok env R c w H) as H1.
  destruct (exec env c w) as [o w1]. apply IH. exact H1.
Qed.

Lemma deliver_ledger_ok config env i w :
  ledger_ok w -> ledger_ok (deliver config env i w).
Proof.
  intro H. destruct i; cbn [deliver]; try (apply run_ledger_ok; exact H).
  - destruct (0 <=? ms); exact H.
  - destruct (nth_error (timers w) n); [| exact H].
    destruct (t_due t <=? clock w); [| exact H]. apply run_ledger_ok. exact H.
  - destruct (started w); [exact H |]. apply run_ledger_ok. exact H.
Qed.

(** From an empty store on, the ledger stays in order. *)
Lemma serve_ledger_ok config env inputs : forall w,
  ledger_ok w -> ledger_ok (serve config env inputs w).
Proof.
  unfold serve. induction inputs as [| i inputs IH]; intros w H; simpl; auto.
  apply IH. apply deliver_ledger_ok. exact H.
Qed.

(** ** Reading the effects *)

Lemma since_app w w' l : effects w' = (effects w ++ l)%list -> since w w' = l.
Proof.
  unfold since. intro H. rewrite H. generalize (effects w) as es.
  induction es as [| e es IH]; simpl; auto.
Qed.

Lemma since_same w w' : effects w' = effects w -> since w w' = [].
Proof. intro H. apply since_app. rewrite app_nil_r. exact H. Qed.

Lemma targets_paced gap bot ms : forall outs,
  List.length outs = List.length ms ->
  targets (paced gap (attempts bot ms outs)) =
  map (fun m => (bot, m_channelId m, m_messageId m)) ms.
Proof.
  induction ms as [| m ms IH]; intros outs Hlen; [reflexivity |].
  destruct outs as [| o outs]; [discriminate |]. injection Hlen as Hlen.
  specialize (IH outs Hlen). cbn [attempts paced].
  destruct ms as [| m2 ms2]; [reflexivity |].
  destruct outs as [| o2 outs2]; [discriminate |].
  cbn [attempts] in *. cbn [targets flat_map attempt app].
  unfold targets in IH. rewrite IH. reflexivity.
Qed.

Lemma sleeps_paced gap bot ms : forall outs,
  List.length outs = List.length ms ->
  sleeps (paced gap (attempts bot ms outs)) = repeat gap (Nat.pred (List.length ms)).
Proof.
  induction ms as [| m ms IH]; intros outs Hlen; [reflexivity |].
  destruct outs as [| o outs]; [discriminate |]. injection Hlen as Hlen.
  specialize (IH outs Hlen). cbn [attempts paced].
  destruct ms as [| m2 ms2]; [reflexivity |].
  destruct outs as [| o2 outs2]; [discriminate |].
  cbn [attempts] in *. cbn [sleeps flat_map attempt app].
  unfold sleeps in IH. rewrite IH. reflexivity.
Qed.

Lemma sends_paced gap bot ms : forall outs,
  sends (paced gap (attempts bot ms outs)) = [].
Proof.
  induction ms as [| m ms IH]; intros outs; [reflexivity |].
  destruct outs as [| o outs]; [reflexivity |].
  specialize (IH outs). cbn [attempts paced].
  destruct ms as [| m2 ms2]; [reflexivity |].
  destruct outs as [| o2 outs2]; [reflexivity |].
  cbn [attempts] in *. cbn [sends flat_map attempt app].
  unfold sends in IH. rewrite IH. reflexivity.
Qed.

Lemma In_without ids l r :
  In r (without ids l) <-> In r l /\ ~ In (m_id r) ids.
Proof.
  unfold without. rewrite filter_In, negb_true_iff.
  split; intros [H1 H2]; split; auto.
  - intro Hin. assert (existsb (Z.eqb (m_id r)) ids = true).
    { apply existsb_exists. exists (m_id r). split; [assumption | apply Z.eqb_refl]. }
    congruence.
  - destruct (existsb (Z.eqb (m_id r)) ids) eqn:E; [| reflexivity].
    apply existsb_exists in E. destruct E as [x [Hx Heq]].
    apply Z.eqb_eq in Heq. subst x. contradiction.
Qed.

Lemma removed_in ms : forall outs i,
  In i (removed ms outs) -> In i (map m_id ms).
Proof.
  induction ms as [| m ms IH]; intros outs i H; [destruct H |].
  destruct outs as [| o outs]; [destruct H |]. simpl in H.
  destruct (resolved o); simpl in *; [destruct H as [H | H] |]; eauto.
Qed.

(** Among rows of distinct ids, the id of a row is among the removed ones
    exactly when its own deletion succeeded. *)
Lemma removed_nth ms : forall outs n m o,
  NoDup (map m_id ms) ->
  nth_error ms n = Some m -> nth_error outs n = Some o ->
  (In (m_id m) (removed ms outs) <-> resolved o = true).
Proof.
  induction ms as [| m0 ms IH]; intros outs n m o Hnd Hm Ho.
  - destruct n; discriminate.
  - destruct outs as [| o0 outs]; [destruct n; discriminate |].
    inversion Hnd as [| x xs Hnotin Hnd']; subst.
    destruct n as [| n]; simpl in Hm, Ho.
    + injection Hm as <-. injection Ho as <-. simpl.
      destruct (resolved o0); simpl; split; auto; try discriminate.
      intro H. apply removed_in in H. contradiction.
    + simpl. specialize (IH outs n m o Hnd' Hm Ho).
      assert (Hne : m_id m0 <> m_id m).
      { intro E. apply Hnotin. rewrite E. apply in_map. eapply nth_error_In; eauto. }
      destruct (resolved o0); simpl; rewrite <- IH; split; auto.
      intros [H | H]; [contradiction | assumption].
Qed.

Lemma recallLogs_nth ms : forall outs n m o,
  nth_error ms n = Some m -> nth_error outs n = Some o ->
  In (recallLog m o) (recallLogs ms outs).
Proof.
  induction ms as [| m0 ms IH]; intros outs n m o Hm Ho.
  - destruct n; discriminate.
  - destruct outs as [| o0 outs]; [destruct n; discriminate |].
    destruct n as [| n]; simpl in Hm, Ho.
    + injection Hm as <-. injection Ho as <-. left. reflexivity.
    + right. eauto.
Qed.

Lemma deletions_paced gap bot ms : forall outs,
  deletions (paced gap (attempts bot ms outs)) = attempts bot ms outs.
Proof.
  induction ms as [| m ms IH]; intros outs; [reflexivity |].
  destruct outs as [| o outs]; [reflexivity |].
  specialize (IH outs). cbn [attempts paced].
  destruct ms as [| m2 ms2]; [reflexivity |].
  destruct outs as [| o2 outs2]; [reflexivity |].
  cbn [attempts] in *. cbn [deletions filter attempt].
  unfold deletions in IH. rewrite IH. reflexivity.
Qed.

Lemma set_users_same l w : l = users w -> set_users l w = w.
Proof. intros ->. destruct w; reflexivity. Qed.

Lemma sends_app a b : sends (a ++ b) = (sends a ++ sends b)%list.
Proof. apply flat_map_app. Qed.

Lemma deletions_app a b : deletions (a ++ b) = (deletions a ++ deletions b)%list.
Proof. apply filter_app. Qed.

Lemma NoDup_map_eq {A B} (f : A -> B) (l : list A) (a b : A) :
  NoDup (map f l) -> In a l -> In b l -> f a = f b -> a = b.
Proof.
  induction l as [| x l IH]; simpl; intros Hnd Ha Hb E; [destruct Ha |].
  inversion Hnd as [| y ys Hnotin Hnd']; subst.
  destruct Ha as [-> | Ha], Hb as [-> | Hb]; auto.
  - exfalso. apply Hnotin. rewrite E. apply in_map. assumption.
  - exfalso. apply Hnotin. rewrite <- E. apply in_map. assumption.
Qed.

(** ** The burn engine *)


(** The sample ledger is in order. *)
Lemma fiveCaptured_ok : ledger_ok fiveCaptured.
Proof.
  split; unfold ascending; simpl; repeat constructor; simpl; lia.
Defined.


(** With five captured messages of which the third cannot be deleted, the
    other four are deleted and leave the ledger, and the third stays. *)
Example third_of_five_fails :
  let w' := snd (run thirdFails
                     (burnAfterReading defaultConfig "alice" "g1" "c1" "bot")
                     fiveCaptured) in
  deletions (effects w') =
    [EDelete "bot" "c1" "m1" true; EDelete "bot" "c1" "m2" true;
     EDelete "bot" "c1" "m3" false; EDelete "bot" "c1" "m4" true;
     EDelete "bot" "c1" "m5" true] /\
  messages w' = [row 3 "m3" "c1"].
Proof. vm_compute. split; reflexivity. Qed.

(** C3.  Order and pacing of a burn over a batch that is not empty.  What
    the burn does to the outside is, in this order: one pause of
    [recallDelay] seconds; the deletion attempts on the rows of the batch, one
    at a time in the batch's order, which is ascending capture order, with
    one pause of [batchRecallInterval] seconds between each two and none
    after the last; the closing notice.  The pauses add up to
    [recallDelay + (n - 1) * batchRecallInterval] seconds, and that is the
    time the burn takes on the clock. *)
Theorem burn_order_and_pacing (config : Config) (env : Env)
    (userId : UserId) (guildId : GuildId) (channelId : ChannelId) (bot : Bot)
    (w : World) :
  ledger_ok w ->
  let batch := filter (message_matches (byUserGuild userId guildId)) (messages w) in
  batch <> [] ->
  let n := Z.of_nat (List.length batch) in
  let w' := snd (run env (burnAfterReading config userId guildId channelId bot) w) in
  ascending batch /\
  (exists outs r,
      List.length outs = List.length batch /\
      since w w' =
        ESleep (recallDelay config * 1000)
          :: paced (batchRecallInterval config * 1000) (attempts bot batch outs)
          ++ [ESend bot channelId "感谢使用阅后即焚" r]) /\
  targets (since w w') = map (fun m => (bot, m_channelId m, m_messageId m)) batch /\
  sleeps (since w w') =
    recallDelay config * 1000
      :: repeat (batchRecallInterval config * 1000) (Nat.pred (List.length batch)) /\
  clock w' - clock w =
    recallDelay config * 1000 + (n - 1) * (batchRecallInterval config * 1000).
Proof.
  intros [Hasc _] batch Hne n w'. subst w'. rewrite burnAfterReading_run.
  set (w1 := set_users _ w).
  pose proof (batchRecallMessages_run config env userId guildId channelId bot w1)
    as [_ H].
  change (filter (message_matches (byUserGuild userId guildId)) (messages w1))
    with batch in H.
  destruct batch as [| m0 ms0] eqn:Hbatch; [contradiction |].
  rewrite <- Hbatch in *. destruct H as [outs [r [Hlen Hb]]].
  destruct Hb as (B1 & B2 & B3 & B4 & B5 & B6 & B7 & B8 & B9 & B10).
  change (effects w1) with (effects w) in B9.
  change (clock w1) with (clock w) in B5.
  rewrite (since_app _ _ _ B9).
  split; [subst batch; apply ascending_filter; exact Hasc |].
  split; [exists outs, r; split; [exact Hlen | reflexivity] |].
  split; [| split].
  - cbn [targets flat_map app].
    fold (targets (paced (batchRecallInterval config * 1000) (attempts bot batch outs)
                     ++ [ESend bot channelId "感谢使用阅后即焚" r])).
    unfold targets at 1. rewrite flat_map_app. fold targets.
    rewrite (targets_paced _ bot batch outs Hlen). simpl. apply app_nil_r.
  - cbn [sleeps flat_map app].
    fold (sleeps (paced (batchRecallInterval config * 1000) (attempts bot batch outs)
                    ++ [ESend bot channelId "感谢使用阅后即焚" r])).
    unfold sleeps at 1. rewrite flat_map_app. fold sleeps.
    rewrite (sleeps_paced _ bot batch outs Hlen). simpl. rewrite app_nil_r. reflexivity.
  - rewrite B5. subst n. rewrite Hbatch. cbn [List.length Nat.pred].
    rewrite Nat2Z.inj_succ. lia.
Qed.

(** Five messages at the default pace: five seconds, then four pauses of one
    second. *)
Lemma burn_order_and_pacing_witness :
  ledger_ok fiveCaptured /\
  filter (message_matches (byUserGuild "alice" "g1")) (messages fiveCaptured) <> [] /\
  sleeps (since fiveCaptured
            (snd (run kindEnv (burnAfterReading defaultConfig "alice" "g1" "c1" "bot")
                      fiveCaptured))) =
    [5000; 1000; 1000; 1000; 1000] /\
  clock (snd (run kindEnv (burnAfterReading defaultConfig "alice" "g1" "c1" "bot")
                  fiveCaptured))
  - clock fiveCaptured = 5000 + 4 * 1000.
Proof.
  assert (Hne : filter (message_matches (byUserGuild "alice" "g1"))
                       (messages fiveCaptured) <> []) by (vm_compute; discriminate).
  split; [exact fiveCaptured_ok |]. split; [exact Hne |].
  destruct (burn_order_and_pacing defaultConfig kindEnv "alice" "g1" "c1" "bot"
              fiveCaptured fiveCaptured_ok Hne) as (_ & _ & _ & Hs & Hc).
  split; [exact Hs | exact Hc].
Defined.

(** The effects of a burn, whatever the batch. *)
Lemma burn_since (config : Config) (env : Env)
    (userId : UserId) (guildId : GuildId) (channelId : ChannelId) (bot : Bot)
    (w : World) :
  let batch := filter (message_matches (byUserGuild userId guildId)) (messages w) in
  let w' := snd (run env (burnAfterReading config userId guildId channelId bot) w) in
  match batch with
  | [] => since w w' = []
  | _ :: _ =>
      exists outs r,
        List.length outs = List.length batch /\
        since w w' =
          ESleep (recallDelay config * 1000)
            :: paced (batchRecallInterval config * 1000) (attempts bot batch outs)
            ++ [ESend bot channelId "感谢使用阅后即焚" r]
  end.
Proof.
  intros batch w'. subst w'. rewrite burnAfterReading_run.
  set (w1 := set_users _ w).
  pose proof (batchRecallMessages_run config env userId guildId channelId bot w1)
    as [_ H].
  change (filter (message_matches (byUserGuild userId guildId)) (messages w1))
    with batch in H.
  destruct batch as [| m0 ms0] eqn:Hbatch.
  - rewrite H. apply since_same. reflexivity.
  - destruct H as [outs [r [Hlen Hb]]]. exists outs, r. split; [exact Hlen |].
    apply since_app. apply Hb.
Qed.

(** C10.  Where a burn deletes and where it sends.  Each deletion is
    attempted in the channel recorded in the row of the message it deletes,
    through the connection the burn was given; the channel the burn was given
    appears in one place only, as the destination of the closing notice, the
    one message a burn sends (and it sends none when the batch is empty). *)
Theorem burn_deletes_in_captured_channel (config : Config) (env : Env)
    (userId : UserId) (guildId : GuildId) (channelId : ChannelId) (bot : Bot)
    (w : World) :
  let batch := filter (message_matches (byUserGuild userId guildId)) (messages w) in
  let w' := snd (run env (burnAfterReading config userId guildId channelId bot) w) in
  targets (since w w') = map (fun m => (bot, m_channelId m, m_messageId m)) batch /\
  sends (since w w') =
    match batch with
    | [] => []
    | _ :: _ => [(bot, channelId, "感谢使用阅后即焚")]
    end.
Proof.
  intros batch w'.
  pose proof (burn_since config env userId guildId channelId bot w) as H.
  cbv zeta in H. fold batch in H. fold w' in H.
  destruct batch as [| m0 ms0] eqn:Hbatch.
  - rewrite H. split; reflexivity.
  - rewrite <- Hbatch in *. destruct H as [outs [r [Hlen Hs]]]. rewrite Hs. split.
    + cbn [targets flat_map app].
      fold (targets (paced (batchRecallInterval config * 1000) (attempts bot batch outs)
                       ++ [ESend bot channelId "感谢使用阅后即焚" r])).
      unfold targets at 1. rewrite flat_map_app. fold targets.
      rewrite (targets_paced _ bot batch outs Hlen). simpl. apply app_nil_r.
    + change (sends (ESleep (recallDelay config * 1000)
                       :: paced (batchRecallInterval config * 1000)
                                (attempts bot batch outs)
                       ++ [ESend bot channelId "感谢使用阅后即焚" r]))
        with (sends (paced (batchRecallInterval config * 1000) (attempts bot batch outs)
                       ++ [ESend bot channelId "感谢使用阅后即焚" r])).
      rewrite sends_app, sends_paced. reflexivity.
Qed.

(** Messages captured in two channels of one group are each deleted in
    their own channel by one burn, whichever channel the burn is given. *)
Example two_channels_one_burn :
  let w := mkWorld [] 2 [row 1 "m1" "c1"; row 2 "m2" "c2"] 3 2000 ["bot"] [] [] [] [] in
  targets (effects (snd (run kindEnv
                             (burnAfterReading defaultConfig "alice" "g1" "c9" "bot") w)))
  = [("bot", "c1", "m1"); ("bot", "c2", "m2")].
Proof. vm_compute. reflexivity. Qed.

(** C5.  A burn with nothing to recall.  The burn ends normally and the
    session of the user in the group is gone afterwards, whether there was
    one or not.  When the ledger holds no row of the user and group, the burn
    does nothing else but write one line to the log: no pause, no deletion,
    no notice, the ledger and the timers as they were.  So a burn that follows
    on such a burn changes nothing but the log. *)
Theorem burn_nothing_to_recall (config : Config) (env : Env)
    (userId : UserId) (guildId : GuildId) (channelId : ChannelId) (bot : Bot)
    (w : World) :
  let burn := burnAfterReading config userId guildId channelId bot in
  let line := mkLog LInfo ("用户 " ++ userId ++ " 在群组 " ++ guildId
                           ++ " 中没有需要撤回的消息") None in
  let w' := snd (run env burn w) in
  fst (run env burn w) = Resolved tt /\
  users w' = filter (keep (user_matches (byUserGuild userId guildId))) (users w) /\
  (filter (message_matches (byUserGuild userId guildId)) (messages w) = [] ->
   w' = add_log line
          (set_users (filter (keep (user_matches (byUserGuild userId guildId)))
                             (users w)) w) /\
   since w w' = [] /\ clock w' = clock w /\ messages w' = messages w /\
   timers w' = timers w /\
   run env burn w' = (Resolved tt, add_log line w')).
Proof.
  intros burn line w'. subst w' burn. rewrite burnAfterReading_run.
  set (w1 := set_users _ w).
  pose proof (batchRecallMessages_run config env userId guildId channelId bot w1)
    as [Hr H].
  change (filter (message_matches (byUserGuild userId guildId)) (messages w1))
    with (filter (message_matches (byUserGuild userId guildId)) (messages w)) in H.
  split; [exact Hr |]. split.
  - destruct (filter (message_matches (byUserGuild userId guildId)) (messages w)).
    + rewrite H. reflexivity.
    + destruct H as [outs [r [_ Hb]]]. destruct Hb as [B1 _]. rewrite B1. reflexivity.
  - intro Hnone. rewrite Hnone in H. rewrite H.
    split; [reflexivity |]. split; [apply since_same; reflexivity |].
    repeat (split; [reflexivity |]).
    rewrite burnAfterReading_run.
    match goal with |- run env _ ?x = _ => set (w2 := x) end.
    pose proof (batchRecallMessages_run config env userId guildId channelId bot w2)
      as [Hr2 H2].
    change (filter (message_matches (byUserGuild userId guildId)) (messages w2))
      with (filter (message_matches (byUserGuild userId guildId)) (messages w)) in H2.
    rewrite Hnone in H2.
    destruct (run env (batchRecallMessages config userId guildId channelId bot) w2)
      as [r2 w3].
    simpl in Hr2, H2. subst r2 w3. f_equal. f_equal.
    subst w2. apply set_users_same. subst w1. cbn [users set_users add_log].
    rewrite filter_twice. apply filter_ext. intro x. destruct (keep _ x); reflexivity.
Qed.

(** A session with nothing captured is burnt, and burnt again. *)
Lemma burn_nothing_to_recall_witness :
  filter (message_matches (byUserGuild "alice" "g1")) (messages justEnabled) = [] /\
  let burn := burnAfterReading defaultConfig "alice" "g1" "c1" "bot" in
  let w' := snd (run kindEnv burn justEnabled) in
  users w' = [] /\ since justEnabled w' = [] /\
  run kindEnv burn w' =
    (Resolved tt,
     add_log (mkLog LInfo "用户 alice 在群组 g1 中没有需要撤回的消息" None) w').
Proof.
  split; [reflexivity |].
  destruct (burn_nothing_to_recall defaultConfig kindEnv "alice" "g1" "c1" "bot"
              justEnabled) as (_ & Hu & H).
  destruct (H eq_refl) as (_ & Hs & _ & _ & _ & Hrun).
  split; [exact Hu |]. split; [exact Hs | exact Hrun].
Defined.

(** ** The scheduler *)

(** C9.  [scheduleExpiration] on an expiry that is not in the future does
    nothing at all: it returns with the world as it was, so no timer is armed,
    nothing is sent and no burn starts.  A session found expired is burnt at
    once by the listener on [ready], which calls [burnAfterReading] itself
    instead. *)
Theorem schedule_of_expired_is_void (config : Config) (env : Env) (w : World) :
  (forall userId guildId channelId expiresAt bot,
      expiresAt - clock w <= 0 ->
      run env (scheduleExpiration userId guildId channelId expiresAt bot) w
      = (Resolved tt, w)) /\
  (forall user bot rest,
      bots w = bot :: rest ->
      u_expiresAt user <= clock w ->
      run env (recoverOne config user) w
      = run env (burnAfterReading config (u_userId user) (u_guildId user)
                                  (u_channelId user) bot) w).
Proof.
  split.
  - intros userId guildId channelId expiresAt bot H.
    unfold scheduleExpiration. rewrite run_bind, run_call. cbn [exec].
    apply Z.leb_le in H. rewrite H. reflexivity.
  - intros user bot rest Hb H.
    unfold recoverOne. rewrite run_bind, run_call. cbn [exec].
    apply Z.ltb_ge in H. rewrite H.
    rewrite run_bind, run_call. cbn [exec]. rewrite Hb. reflexivity.
Qed.

(** Scheduling at the very instant of the expiry. *)
Lemma schedule_of_expired_is_void_witness :
  3601000 - clock (set_now 3601000 justEnabled) <= 0 /\
  run kindEnv (scheduleExpiration "alice" "g1" "c1" 3601000 "bot")
      (set_now 3601000 justEnabled)
  = (Resolved tt, set_now 3601000 justEnabled).
Proof.
  assert (H : 3601000 - clock (set_now 3601000 justEnabled) <= 0) by (simpl; lia).
  split; [exact H |].
  exact (proj1 (schedule_of_expired_is_void defaultConfig kindEnv
                  (set_now 3601000 justEnabled))
               "alice" "g1" "c1" 3601000 "bot" H).
Defined.

(** ** Message capture *)



(** ** The commands *)

Lemma user_matches_byUser u r : user_matches (byUser u) r = String.eqb u (u_userId r).
Proof. unfold user_matches, byUser, holds; simpl. apply andb_true_r. Qed.

Lemma user_matches_byGuild g r : user_matches (byGuild g) r = String.eqb g (u_guildId r).
Proof. reflexivity. Qed.

Lemma user_matches_byUserGuild u g r :
  user_matches (byUserGuild u g) r
  = String.eqb u (u_userId r) && String.eqb g (u_guildId r).
Proof. reflexivity. Qed.

Lemma message_matches_byUserGuild u g r :
  message_matches (byUserGuild u g) r
  = String.eqb u (m_userId r) && String.eqb g (m_guildId r).
Proof. reflexivity. Qed.

Lemma append_nil_r (x : string) : x ++ EmptyString = x.
Proof. induction x; simpl; congruence. Qed.

Lemma append_assoc (x y z : string) : (x ++ y) ++ z = x ++ y ++ z.
Proof. induction x; simpl; congruence. Qed.

Lemma mentions_refl (x : string) : mentions x x.
Proof. exists EmptyString, EmptyString. simpl. symmetry. apply append_nil_r. Qed.

Lemma mentions_within (x y before after : string) :
  mentions x y -> mentions (before ++ x ++ after) y.
Proof.
  intros [b [a ->]]. exists (before ++ b), (a ++ after).
  rewrite !append_assoc. reflexivity.
Qed.

Section Commands.

Variable config : Config.
Variable env : Env.

Lemma checkBotPermission_run session w :
  run env (checkBotPermission session) w =
  match truthy (s_guildId session) with
  | None => (Resolved false, w)
  | Some guildId =>
      match getGroupMemberInfo env w guildId (s_bot session) with
      | Resolved botRole => (Resolved (negb (GroupRole_eqb botRole member)), w)
      | Rejected e => (Resolved false, add_log (mkLog LWarn "检查 bot 权限失败:" (Some e)) w)
      end
  end.
Proof.
  unfold checkBotPermission. destruct (truthy (s_guildId session)); [| reflexivity].
  cbn. destruct (getGroupMemberInfo env w s (s_bot session)) as [[] | e]; reflexivity.
Qed.

Lemma checkUserRole_run session w :
  run env (checkUserRole session) w =
  match truthy (s_guildId session) with
  | None => (Resolved false, w)
  | Some guildId =>
      match getGroupMemberInfo env w guildId (s_userId session) with
      | Resolved userRole =>
          match getGroupMemberInfo env w guildId (s_bot session) with
          | Resolved botRole =>
              (Resolved (negb (GroupRole_eqb userRole owner
                               || (GroupRole_eqb userRole admin
                                   && negb (GroupRole_eqb botRole owner)))), w)
          | Rejected e =>
              (Resolved false, add_log (mkLog LWarn "检查用户角色失败:" (Some e)) w)
          end
      | Rejected e =>
          (Resolved false, add_log (mkLog LWarn "检查用户角色失败:" (Some e)) w)
      end
  end.
Proof.
  unfold checkUserRole. destruct (truthy (s_guildId session)); [| reflexivity].
  cbn. destruct (getGroupMemberInfo env w s (s_userId session)) as [[] | e];
    cbn; try reflexivity;
    destruct (getGroupMemberInfo env w s (s_bot session)) as [[] | e]; reflexivity.
Qed.

(** What [describeGuild] answers: it always answers, and the answer has the
    group's id in it. *)
Lemma describeGuild_run bot guildId w :
  exists info w',
    run env (describeGuild bot guildId) w = (Resolved info, w') /\
    mentions info guildId /\
    (w' = w \/ exists e, w' = add_log (mkLog LDebug "获取群组信息失败:" (Some e)) w).
Proof.
  unfold describeGuild. rewrite run_try_catch, run_bind, run_await. cbn [exec].
  destruct (getGuild env w bot guildId) as [[g |] | e].
  - destruct (truthy (g_name g)) as [name |] eqn:Hn.
    + exists (name ++ "（" ++ guildId ++ "）"), w. split; [reflexivity |].
      split; [| left; reflexivity].
      exists (name ++ "（"), "）". rewrite append_assoc. reflexivity.
    + exists guildId, w. split; [reflexivity |].
      split; [apply mentions_refl | left; reflexivity].
  - exists guildId, w. split; [reflexivity |].
    split; [apply mentions_refl | left; reflexivity].
  - exists guildId. eexists. split; [| split; [apply mentions_refl |]].
    + rewrite run_bind, run_call. cbn [exec run]. reflexivity.
    + right. eexists. reflexivity.
Qed.

Lemma scheduleExpiration_run userId guildId channelId expiresAt bot w :
  run env (scheduleExpiration userId guildId channelId expiresAt bot) w =
  (Resolved tt,
   if expiresAt - clock w <=? 0 then w
   else set_timers (timers w ++ [mkTimer (clock w + (expiresAt - clock w))
                                         (expiresAt - clock w)
                                         (JExpire userId guildId channelId bot)]) w).
Proof.
  unfold scheduleExpiration. rewrite run_bind, run_call. cbn [exec].
  destruct (expiresAt - clock w <=? 0); reflexivity.
Qed.

Lemma untouched_refl w : untouched w w.
Proof. repeat split. Qed.

Lemma untouched_log e w : untouched w (add_log e w).
Proof. repeat split. Qed.

Lemma untouched_trans w1 w2 w3 : untouched w1 w2 -> untouched w2 w3 -> untouched w1 w3.
Proof. unfold untouched. intuition congruence. Qed.

Ltac rejected_untouched :=
  left; eexists; eexists; split; [reflexivity |];
  first [apply untouched_refl | apply untouched_log].

(** The checks of [enable]: either one of them turns the command down, with
    a reply and nothing changed but the log, or all pass and the command goes
    on to open the session. *)
Lemma enable_guards session w :
  (exists reply w',
      run env (enable config session) w = (Resolved (Some reply), w') /\
      untouched w w') \/
  (exists guildId,
      truthy (s_guildId session) = Some guildId /\
      permitted env session w /\
      filter (user_matches (byUser (s_userId session))) (users w) = [] /\
      Z.of_nat (List.length (filter (user_matches (byGuild guildId)) (users w)))
        < maxUsers config /\
      run env (enable config session) w = run env (activate config session guildId) w).
Proof.
  unfold enable, permitted.
  destruct (truthy (s_guildId session)) as [guildId |] eqn:Hg; [| rejected_untouched].
  rewrite run_bind, !checkBotPermission_run, !checkUserRole_run, Hg.
  destruct (getGroupMemberInfo env w guildId (s_bot session)) as [botRole | e] eqn:Hb;
    [| rejected_untouched].
  destruct (GroupRole_eqb botRole member) eqn:Hm; cbn [negb]; [rejected_untouched |].
  rewrite run_bind, checkUserRole_run, Hg.
  destruct (getGroupMemberInfo env w guildId (s_userId session)) as [userRole | e] eqn:Hu;
    [| rejected_untouched].
  rewrite Hb.
  destruct (GroupRole_eqb userRole owner
            || GroupRole_eqb userRole admin && negb (GroupRole_eqb botRole owner)) eqn:Hr;
    cbn [negb]; [rejected_untouched |].
  rewrite run_bind, run_await. cbn [exec].
  destruct (filter (user_matches (byUser (s_userId session))) (users w))
    as [| existingRecord others] eqn:Hnone.
  - rewrite run_bind, run_await. cbn [exec].
    destruct (Z.of_nat (List.length (filter (user_matches (byGuild guildId)) (users w)))
              >=? maxUsers config) eqn:Hcap; [rejected_untouched |].
    right. exists guildId. repeat split; try reflexivity.
    rewrite Z.geb_leb in Hcap. apply Z.leb_gt in Hcap. exact Hcap.
  - destruct (String.eqb (u_guildId existingRecord) guildId); [rejected_untouched |].
    rewrite run_bind.
    destruct (describeGuild_run (s_bot session) (u_guildId existingRecord) w)
      as [info [w' [Hrun [_ Hw]]]].
    rewrite Hrun. left. eexists. exists w'. split; [reflexivity |].
    destruct Hw as [-> | [e ->]]; [apply untouched_refl | apply untouched_log].
Qed.

(** With a session of the user on record, in whatever group, [enable] turns
    the command down and changes nothing but the log. *)
Lemma enable_turns_down session w :
  filter (user_matches (byUser (s_userId session))) (users w) <> [] ->
  exists reply w',
    run env (enable config session) w = (Resolved (Some reply), w') /\
    untouched w w'.
Proof.
  intro H. destruct (enable_guards session w) as [Hl | [g (_ & _ & Hnone & _)]];
    [exact Hl | contradiction].
Qed.

(** Past the checks on the group and on the roles, the reply to a user whose
    session is in another group has that group's id in it. *)
Lemma enable_names_group session w guildId existingRecord others :
  truthy (s_guildId session) = Some guildId ->
  permitted env session w ->
  filter (user_matches (byUser (s_userId session))) (users w)
    = existingRecord :: others ->
  u_guildId existingRecord <> guildId ->
  exists reply w',
    run env (enable config session) w = (Resolved (Some reply), w') /\
    mentions reply (u_guildId existingRecord).
Proof.
  intros Hg [Hp1 Hp2] Hex Hne. unfold enable.
  rewrite checkBotPermission_run, Hg in Hp1. rewrite checkUserRole_run, Hg in Hp2.
  rewrite Hg, run_bind, checkBotPermission_run, Hg.
  destruct (getGroupMemberInfo env w guildId (s_bot session)) as [botRole | e] eqn:Hb;
    [| discriminate Hp1].
  simpl in Hp1. injection Hp1 as Hp1. rewrite Hp1. cbn [negb].
  rewrite run_bind, checkUserRole_run, Hg, Hb.
  destruct (getGroupMemberInfo env w guildId (s_userId session)) as [userRole | e];
    [| discriminate Hp2].
  simpl in Hp2. injection Hp2 as Hp2. rewrite Hp2. cbn [negb].
  rewrite run_bind, run_await. cbn [exec]. rewrite Hex.
  apply String.eqb_neq in Hne. rewrite Hne. rewrite run_bind.
  destruct (describeGuild_run (s_bot session) (u_guildId existingRecord) w)
    as [info [w' [Hrun [Hm _]]]].
  rewrite Hrun. eexists. exists w'. split; [reflexivity |].
  apply mentions_within. exact Hm.
Qed.

(** [activate] writes the session or, when the store rejects the insert,
    nothing at all; what it does afterwards leaves the sessions alone. *)
Lemma activate_users session guildId w :
  let w' := snd (run env (activate config session guildId) w) in
  users w' = users w \/
  users w' = (users w ++ [newSession config session guildId w])%list.
Proof.
  unfold activate. rewrite run_bind, run_call. cbn [exec].
  rewrite run_bind, run_await. cbn [exec].
  destruct (create env w); [right | left; reflexivity].
  rewrite run_sameUsers; [reflexivity |].
  unfold scheduleExpiration. footprint.
Qed.

(** The sessions after [enable]: as before, or with the new session of a
    user who had none, in a group that was below its maximum. *)
Lemma enable_users session w :
  let w' := snd (run env (enable config session) w) in
  users w' = users w \/
  exists guildId,
    truthy (s_guildId session) = Some guildId /\
    filter (user_matches (byUser (s_userId session))) (users w) = [] /\
    Z.of_nat (List.length (sessionsIn guildId w)) < maxUsers config /\
    users w' = (users w ++ [newSession config session guildId w])%list.
Proof.
  destruct (enable_guards session w)
    as [[reply [w' [Hrun Hu]]] | [g (Hg & _ & Hnone & Hcap & Hrun)]].
  - rewrite Hrun. left. apply Hu.
  - rewrite Hrun. destruct (activate_users session g w) as [H | H]; [left; exact H |].
    right. exists g. auto.
Qed.

Lemma recoverEach_within (P : forall R, Cmd R -> Prop) :
  (forall u, within P (recoverOne config u)) ->
  forall l, within P (recoverEach config l).
Proof.
  intros H l. induction l as [| u l IH]; cbn [recoverEach]; footprint_with ltac:(auto).
Qed.

Lemma disable_inserts_no_user session : within insertsNoUser (disable config session).
Proof. unfold disable, deactivate, describeGuild. footprint. Qed.

Lemma onMessage_inserts_no_user session : within insertsNoUser (onMessage session).
Proof. unfold onMessage, storeMessageForRecall. footprint. Qed.

Lemma burn_inserts_no_user u g c bot :
  within insertsNoUser (burnAfterReading config u g c bot).
Proof. apply burnAfterReading_within; intros; exact I. Qed.

Lemma onReady_inserts_no_user : within insertsNoUser (onReady config).
Proof.
  unfold onReady.
  footprint_with ltac:(first [ exact I
                             | apply recoverEach_within; intro; unfold recoverOne,
                                 scheduleExpiration;
                               footprint_with ltac:(first [exact I
                                                          | apply burn_inserts_no_user]) ]).
Qed.

Lemma perform_inserts_no_user job : within insertsNoUser (perform config job).
Proof.
  destruct job; unfold perform, onExpire;
    footprint_with ltac:(first [exact I | apply burn_inserts_no_user]).
Qed.

End Commands.

(** ** One command at a time *)

Lemma NoDup_snoc {A} (l : list A) (x : A) : NoDup l -> ~ In x l -> NoDup (l ++ [x]).
Proof.
  induction l as [| y l IH]; simpl; intros Hnd Hx.
  - constructor; [intros [] | constructor].
  - inversion Hnd as [| z zs Hnotin Hnd']; subst. constructor.
    + rewrite in_app_iff. simpl. intuition congruence.
    + apply IH; tauto.
Qed.

Lemma fewerUsers_one_session w w' :
  fewerUsers w w' -> oneSessionPerUser w -> oneSessionPerUser w'.
Proof.
  unfold oneSessionPerUser. intros [f ->]. apply NoDup_map_filter.
Qed.

Lemma fewerUsers_sessionsIn g w w' :
  fewerUsers w w' ->
  (List.length (sessionsIn g w') <= List.length (sessionsIn g w))%nat.
Proof.
  unfold sessionsIn. intros [f ->]. apply filter_length_le'.
Qed.

Section Serial_facts.

Variable config : Config.
Variable env : Env.

(** What one input does to the sessions: it removes some, or it is an
    [Enable] that adds the session of a user who had none, in a group that was
    below its maximum. *)
Lemma deliver_users i w :
  fewerUsers w (deliver config env i w) \/
  exists session guildId,
    i = Enable session /\
    filter (user_matches (byUser (s_userId session))) (users w) = [] /\
    Z.of_nat (List.length (sessionsIn guildId w)) < maxUsers config /\
    users (deliver config env i w)
    = (users w ++ [newSession config session guildId w])%list.
Proof.
  destruct i as [session | session | session | | ms | n |]; cbn [deliver].
  - destruct (enable_users config env session w) as [H | [g (Hg & Hn & Hc & Hu)]].
    + left. apply fewerUsers_same. exact H.
    + right. exists session, g. auto.
  - left. apply run_fewerUsers. apply disable_inserts_no_user.
  - left. apply run_fewerUsers. apply onMessage_inserts_no_user.
  - left. apply run_fewerUsers. apply onReady_inserts_no_user.
  - left. destruct (0 <=? ms); apply fewerUsers_same; reflexivity.
  - left. destruct (nth_error (timers w) n) as [t |]; [| apply fewerUsers_refl].
    destruct (t_due t <=? clock w); [| apply fewerUsers_refl].
    eapply fewerUsers_trans;
      [| apply run_fewerUsers; apply perform_inserts_no_user].
    apply fewerUsers_same. reflexivity.
  - left. destruct (started w) as [| job rest]; [apply fewerUsers_refl |].
    eapply fewerUsers_trans;
      [| apply run_fewerUsers; apply perform_inserts_no_user].
    apply fewerUsers_same. reflexivity.
Qed.

Lemma deliver_keeps_one_session i w :
  oneSessionPerUser w -> oneSessionPerUser (deliver config env i w).
Proof.
  intro H. destruct (deliver_users i w) as [Hf | [session [g (_ & Hn & _ & Hu)]]].
  - eapply fewerUsers_one_session; eauto.
  - unfold oneSessionPerUser. rewrite Hu, map_app. apply NoDup_snoc; [exact H |].
    simpl. intro Hin. apply in_map_iff in Hin. destruct Hin as [r [Hr Hin]].
    pose proof (filter_nil_none _ _ Hn r Hin) as Hf.
    rewrite user_matches_byUser, Hr, String.eqb_refl in Hf. discriminate.
Qed.

Lemma serve_keeps_one_session inputs : forall w,
  oneSessionPerUser w -> oneSessionPerUser (serve config env inputs w).
Proof.
  unfold serve. induction inputs as [| i inputs IH]; intros w H; simpl; auto.
  apply IH. apply deliver_keeps_one_session. exact H.
Qed.

Lemma deliver_keeps_capacity i w :
  withinCapacity config w -> withinCapacity config (deliver config env i w).
Proof.
  intros H g. destruct (deliver_users i w) as [Hf | [session [g' (_ & _ & Hc & Hu)]]].
  - pose proof (fewerUsers_sessionsIn g _ _ Hf). specialize (H g). lia.
  - specialize (H g). unfold sessionsIn in *.
    rewrite Hu, filter_app, length_app. simpl.
    rewrite user_matches_byGuild. simpl.
    destruct (String.eqb g g') eqn:E; simpl.
    + apply String.eqb_eq in E. subst g'. lia.
    + lia.
Qed.

Lemma serve_keeps_capacity inputs : forall w,
  withinCapacity config w -> withinCapacity config (serve config env inputs w).
Proof.
  unfold serve. induction inputs as [| i inputs IH]; intros w H; simpl; auto.
  apply IH. apply deliver_keeps_capacity. exact H.
Qed.

End Serial_facts.

(** ** Session uniqueness *)

Lemma prefix_append (part after : string) : String.prefix part (part ++ after) = true.
Proof.
  induction part as [| c part IH]; simpl; [destruct after; reflexivity |].
  destruct (ascii_dec c c); [exact IH | contradiction].
Qed.

Lemma occursb_unfold part text :
  occursb part text =
  String.prefix part text ||
  match text with
  | EmptyString => false
  | String _ rest => occursb part rest
  end.
Proof. destruct text; reflexivity. Qed.

Lemma mentions_occursb text part : mentions text part -> occursb part text = true.
Proof.
  intros [before [after ->]]. induction before as [| c before IH]; simpl.
  - rewrite occursb_unfold, prefix_append. reflexivity.
  - rewrite IH. apply orb_true_r.
Qed.




(** ** Commands that take turns *)

(** C6, where the code falls short.  With room for one session in a group,
    two users whose commands take turns at their [await]s both get a session
    there: each command counts the sessions before the other has written
    its own. *)
Theorem interleaved_enables_exceed_capacity :
  let config := mkConfig 5 3600 1 1 in
  let end_ := interleave kindEnv turnAbout
                [enable config (alice "g1" "m1"); enable config (bob "g1" "m2")]
                (emptyWorld 1000 ["bot"]) in
  fst end_ = [Ret None; Ret None] /\
  map u_userId (sessionsIn "g1" (snd end_)) = ["alice"; "bob"] /\
  maxUsers config < Z.of_nat (List.length (sessionsIn "g1" (snd end_))).
Proof. vm_compute. repeat split. Qed.

(** The same two commands, one after the other: the second is turned down. *)
Example serial_enables_respect_capacity :
  let config := mkConfig 5 3600 1 1 in
  map u_userId
      (sessionsIn "g1" (serve config kindEnv
                              [Enable (alice "g1" "m1"); Enable (bob "g1" "m2")]
                              (emptyWorld 1000 ["bot"])))
  = ["alice"].
Proof. vm_compute. reflexivity. Qed.

(** One user asks for a session in two groups at the same time: both
    commands get past the look-up before either has written, and the user ends
    up with two sessions. *)
Example interleaved_enables_same_user :
  let end_ := interleave kindEnv turnAbout
                [enable defaultConfig (alice "g1" "m1");
                 enable defaultConfig (alice "g2" "m2")]
                (emptyWorld 1000 ["bot"]) in
  fst end_ = [Ret None; Ret None] /\
  map (fun r => (u_userId r, u_guildId r)) (users (snd end_))
  = [("alice", "g1"); ("alice", "g2")].
Proof. vm_compute. repeat split. Qed.

(** ** Recovery at start-up *)

Lemma gone_fewerUsers r w w' : fewerUsers w w' -> gone r w -> gone r w'.
Proof.
  intros [f Hf] H r' Hin. rewrite Hf in Hin. apply filter_In in Hin.
  apply H. tauto.
Qed.

Lemma armedFor_moreTimers r bot w w' : moreTimers w w' -> armedFor r bot w -> armedFor r bot w'.
Proof.
  intros [l Hl] [delay [Hd Hin]]. exists delay. split; [exact Hd |].
  rewrite Hl. apply in_or_app. left. exact Hin.
Qed.

Section Recovery.

Variable config : Config.
Variable env : Env.
Hypothesis config_ok : validConfig config.

Lemma burn_sleeps_forward u g c bot :
  within sleepsForward (burnAfterReading config u g c bot).
Proof.
  destruct config_ok as (H1 & _ & _ & H2).
  apply burnAfterReading_within; intros; cbn; try exact I; lia.
Qed.

Lemma recoverOne_sleeps_forward user : within sleepsForward (recoverOne config user).
Proof.
  unfold recoverOne, scheduleExpiration.
  footprint_with ltac:(first [exact I | apply burn_sleeps_forward]).
Qed.

Lemma burn_resolves u g c bot w :
  fst (run env (burnAfterReading config u g c bot) w) = Resolved tt.
Proof.
  rewrite burnAfterReading_run.
  apply (batchRecallMessages_run config env u g c bot).
Qed.

Lemma burn_users u g c bot w :
  users (snd (run env (burnAfterReading config u g c bot) w))
  = filter (keep (user_matches (byUserGuild u g))) (users w).
Proof.
  rewrite burnAfterReading_run, run_sameUsers; [reflexivity |].
  apply batchRecallMessages_within; intros; exact I.
Qed.

Lemma burn_timers u g c bot w :
  timers (snd (run env (burnAfterReading config u g c bot) w)) = timers w.
Proof.
  apply run_sameTimers. apply burnAfterReading_within; intros; exact I.
Qed.

(** One turn of the loop, with a connection at hand: a session whose expiry
    is still ahead gets its timer, for the time that is left and so due at the
    expiry, and nothing else changes; any other session is burnt on the
    spot. *)
Lemma recoverOne_run user bot rest w :
  bots w = bot :: rest ->
  run env (recoverOne config user) w =
  if clock w <? u_expiresAt user
  then (Resolved tt,
        set_timers (timers w ++ [mkTimer (u_expiresAt user)
                                         (u_expiresAt user - clock w)
                                         (JExpire (u_userId user) (u_guildId user)
                                                  (u_channelId user) bot)]) w)
  else run env (burnAfterReading config (u_userId user) (u_guildId user)
                                 (u_channelId user) bot) w.
Proof.
  intro Hb. unfold recoverOne. rewrite run_bind, run_call. cbn [exec].
  destruct (clock w <? u_expiresAt user) eqn:E.
  - rewrite run_bind, run_call. cbn [exec]. rewrite Hb, scheduleExpiration_run.
    apply Z.ltb_lt in E.
    assert (Hd : (u_expiresAt user - clock w <=? 0) = false) by (apply Z.leb_gt; lia).
    rewrite Hd. repeat f_equal. lia.
  - rewrite run_bind, run_call. cbn [exec]. rewrite Hb. reflexivity.
Qed.

Lemma recoverOne_resolves user w :
  fst (run env (recoverOne config user) w) = Resolved tt.
Proof.
  unfold recoverOne. rewrite run_bind, run_call. cbn [exec].
  destruct (clock w <? u_expiresAt user); rewrite run_bind, run_call; cbn [exec];
    destruct (bots w); try reflexivity.
  - rewrite scheduleExpiration_run. reflexivity.
  - apply burn_resolves.
Qed.

(** The loop over the sessions that were on record at start-up. *)
Lemma recoverEach_run rs : forall bot rest w,
  bots w = bot :: rest ->
  NoDup (map u_userId rs) ->
  let w' := snd (run env (recoverEach config rs) w) in
  fst (run env (recoverEach config rs) w) = Resolved tt /\
  fewerUsers w w' /\ clock w <= clock w' /\
  (forall x, In x (users w) -> ~ In (u_userId x) (map u_userId rs) -> In x (users w')) /\
  (forall r, In r rs ->
             (u_expiresAt r <= clock w -> gone r w') /\
             (gone r w' \/ ((In r (users w) -> In r (users w')) /\ armedFor r bot w'))).
Proof.
  induction rs as [| r0 rs IH]; intros bot rest w Hb Hnd; cbn [recoverEach].
  - simpl. split; [reflexivity |]. split; [apply fewerUsers_refl |].
    split; [lia |]. split; [auto | intros r []].
  - rewrite run_bind.
    pose proof (recoverOne_resolves r0 w) as Hres.
    pose proof (recoverOne_run r0 bot rest w Hb) as Hone.
    pose proof (run_later env _ (recoverOne config r0) w
                          (recoverOne_sleeps_forward r0)) as Hlater.
    pose proof (run_sameBots env _ (recoverOne config r0) w) as Hbots.
    destruct (run env (recoverOne config r0) w) as [o w1].
    simpl in Hres, Hlater, Hbots. subst o.
    inversion Hnd as [| x xs Hnotin Hnd']; subst.
    assert (Hb1 : bots w1 = bot :: rest) by congruence.
    specialize (IH bot rest w1 Hb1 Hnd').
    cbv zeta in IH. destruct IH as (I1 & I2 & I3 & I4 & I5).
    pose proof (run_moreTimers env _ (recoverEach config rs) w1) as Hmore.
    destruct (run env (recoverEach config rs) w1) as [o w'].
    simpl in I1, I2, I3, I4, I5, Hmore. subst o. simpl.
    (* what the turn of [r0] did to the sessions and timers *)
    assert (Hturn :
              (clock w < u_expiresAt r0 /\ users w1 = users w /\ armedFor r0 bot w1) \/
              (u_expiresAt r0 <= clock w /\ gone r0 w1 /\
               users w1 = filter (keep (user_matches
                                          (byUserGuild (u_userId r0) (u_guildId r0))))
                                 (users w))).
    { destruct (clock w <? u_expiresAt r0) eqn:E.
      - left. apply Z.ltb_lt in E. injection Hone as ->. split; [exact E |].
        split; [reflexivity |].
        exists (u_expiresAt r0 - clock w). split; [lia |].
        cbn. apply in_or_app. right. left. reflexivity.
      - right. apply Z.ltb_ge in E. split; [exact E |].
        assert (Hu : users w1 = filter (keep (user_matches
                                               (byUserGuild (u_userId r0) (u_guildId r0))))
                                      (users w)).
        { rewrite <- (burn_users (u_userId r0) (u_guildId r0) (u_channelId r0) bot w).
          rewrite <- Hone. reflexivity. }
        split; [| exact Hu].
        intros r' Hin Hu' Hg'. rewrite Hu in Hin. apply filter_In in Hin.
        destruct Hin as [_ Hk]. unfold keep in Hk.
        rewrite user_matches_byUserGuild, <- Hu', <- Hg', !String.eqb_refl in Hk.
        discriminate. }
    assert (Hfew : fewerUsers w w1).
    { destruct Hturn as [(_ & Hu & _) | (_ & _ & Hu)];
        [apply fewerUsers_same; exact Hu | eexists; exact Hu]. }
    assert (Hkeep : forall x, In x (users w) -> u_userId x <> u_userId r0 ->
                              In x (users w1)).
    { intros x Hx Hne. destruct Hturn as [(_ & Hu & _) | (_ & _ & Hu)]; rewrite Hu;
        [exact Hx |].
      apply filter_In. split; [exact Hx |]. unfold keep.
      rewrite user_matches_byUserGuild.
      destruct (String.eqb (u_userId r0) (u_userId x)) eqn:E; [| reflexivity].
      apply String.eqb_eq in E. congruence. }
    split; [reflexivity |].
    split; [eapply fewerUsers_trans; eauto |].
    split; [lia |]. split.
    + intros x Hx Hnot. apply I4.
      * apply Hkeep; [exact Hx |]. intro E. apply Hnot. left. symmetry. exact E.
      * intro Hin. apply Hnot. right. exact Hin.
    + intros r [<- | Hin].
      * split.
        -- intro Hexp. destruct Hturn as [(Hf & _) | (_ & Hgone & _)]; [lia |].
           eapply gone_fewerUsers; eauto.
        -- destruct Hturn as [(_ & Hu & Harm) | (_ & Hgone & _)].
           ++ right. split.
              ** intro Hx. apply I4; [rewrite Hu; exact Hx | exact Hnotin].
              ** eapply armedFor_moreTimers; [exact Hmore | exact Harm].
           ++ left. eapply gone_fewerUsers; eauto.
      * destruct (I5 r Hin) as [J1 J2]. split.
        -- intro Hexp. apply J1. lia.
        -- destruct J2 as [J2 | [J2 J3]]; [left; exact J2 | right].
           split; [| exact J3].
           intro Hx. apply J2. apply Hkeep; [exact Hx |].
           intro E. apply Hnotin. rewrite <- E. apply in_map. exact Hin.
Qed.

End Recovery.



(** The restart of the example, run: the expired session is burnt at once
    (its message deleted after the grace period, no expiry notice), the other
    gets a timer of a hundred seconds, less the time the burn took. *)
Example recovery_of_two_sessions :
  let w' := snd (run kindEnv (onReady defaultConfig) (afterRestart ["bot"])) in
  map u_userId (users w') = ["bob"] /\
  timers w' = [mkTimer 3711000 95000 (JExpire "bob" "g2" "c2" "bot")] /\
  effects w' = [ESleep 5000; EDelete "bot" "c1" "m1" true;
                ESend "bot" "c1" "感谢使用阅后即焚" (Resolved ["n0"])].
Proof. vm_compute. repeat split. Qed.


(** ** Opening and closing a session *)

Section Open_close.

Variable config : Config.
Variable env : Env.

(** Every check passed: [enable] opens the session. *)
Lemma enable_passes session guildId w :
  truthy (s_guildId session) = Some guildId ->
  permitted env session w ->
  filter (user_matches (byUser (s_userId session))) (users w) = [] ->
  Z.of_nat (List.length (sessionsIn guildId w)) < maxUsers config ->
  run env (enable config session) w = run env (activate config session guildId) w.
Proof.
  intros Hg [Hp1 Hp2] Hnone Hcap. unfold enable.
  rewrite checkBotPermission_run, Hg in Hp1. rewrite checkUserRole_run, Hg in Hp2.
  rewrite Hg, run_bind, checkBotPermission_run, Hg.
  destruct (getGroupMemberInfo env w guildId (s_bot session)) as [botRole | e] eqn:Hb;
    [| discriminate Hp1].
  simpl in Hp1. injection Hp1 as Hp1. rewrite Hp1. cbn [negb].
  rewrite run_bind, checkUserRole_run, Hg, Hb.
  destruct (getGroupMemberInfo env w guildId (s_userId session)) as [userRole | e];
    [| discriminate Hp2].
  simpl in Hp2. injection Hp2 as Hp2. rewrite Hp2. cbn [negb].
  rewrite run_bind, run_await. cbn [exec]. rewrite Hnone.
  rewrite run_bind, run_await. cbn [exec].
  unfold sessionsIn in Hcap.
  assert (E : (Z.of_nat (List.length (filter (user_matches (byGuild guildId)) (users w)))
               >=? maxUsers config) = false).
  { rewrite Z.geb_leb. apply Z.leb_gt. exact Hcap. }
  rewrite E. reflexivity.
Qed.

Hypothesis store_accepts : forall w, create env w = Resolved tt.
Hypothesis send_answers :
  forall w bot channelId text,
  exists first more, sendMessage env w bot channelId text = Resolved (first :: more).

(** With a store that accepts and a platform that answers, [activate] writes
    the session, captures the command's own message, sends the opening notice
    and captures it. *)
Lemma activate_run session guildId w :
  exists first more w',
    run env (activate config session guildId) w = (Resolved None, w') /\
    users w' = (users w ++ [newSession config session guildId w])%list /\
    messages w' =
      (messages w
       ++ [mkMessage (messageSeq w) (stored (s_messageId session)) (s_userId session)
                     guildId (s_channelId session) (clock w);
           mkMessage (messageSeq w + 1) first (s_userId session)
                     guildId (s_channelId session) (clock w)])%list /\
    effects w' =
      (effects w
       ++ [ESend (s_bot session) (s_channelId session)
                 ("阅后即焚模式已开启。在关闭前或 " ++ show (maxDuration config)
                  ++ " 秒内发送的消息都将延迟 " ++ show (recallDelay config)
                  ++ " 秒批量撤回。")
                 (Resolved (first :: more))])%list /\
    started w' = started w /\ clock w' = clock w /\
    messageSeq w' = messageSeq w + 1 + 1.
Proof.
  unfold activate.
  rewrite run_bind, run_call. cbn [exec].
  rewrite run_bind, run_await. cbn [exec]. rewrite store_accepts.
  match goal with |- context [run env _ ?x] => set (w1 := x) end.
  rewrite run_bind, run_await. cbn [exec]. rewrite store_accepts.
  match goal with |- context [run env _ ?x] => set (w2 := x) end.
  rewrite run_bind, scheduleExpiration_run.
  match goal with |- context [run env _ ?x] => set (w3 := x) end.
  rewrite run_bind, run_await. cbn [exec].
  destruct (send_answers w3 (s_bot session) (s_channelId session)
              ("阅后即焚模式已开启。在关闭前或 " ++ show (maxDuration config)
               ++ " 秒内发送的消息都将延迟 " ++ show (recallDelay config)
               ++ " 秒批量撤回。")) as [first [more Hs]].
  rewrite Hs.
  match goal with |- context [run env _ ?x] => set (w4 := x) end.
  rewrite run_bind, run_try_catch, run_await. cbn [exec]. rewrite store_accepts.
  cbn [run].
  exists first, more. eexists. split; [reflexivity |].
  assert (H3 : users w3 = users w2 /\ messages w3 = messages w2 /\
               messageSeq w3 = messageSeq w2 /\ effects w3 = effects w2 /\
               started w3 = started w2 /\ clock w3 = clock w2).
  { subst w3. destruct (_ <=? 0); repeat split. }
  destruct H3 as (A1 & A2 & A3 & A4 & A5 & A6).
  subst w4. cbn [users messages messageSeq effects started clock
                 set_messageSeq set_messages add_effect].
  rewrite A1, A2, A3, A4, A5, A6. subst w2 w1.
  cbn [users messages messageSeq effects started clock
       set_messageSeq set_messages set_userSeq set_users].
  rewrite <- app_assoc. repeat split.
Qed.

(** With a store that accepts and a platform that answers, [deactivate]
    sends the closing notice, captures it and starts the burn, which it does
    not wait for. *)
Lemma deactivate_run session guildId w :
  exists first more w',
    run env (deactivate config session guildId) w = (Resolved None, w') /\
    users w' = users w /\
    messages w' =
      (messages w
       ++ [mkMessage (messageSeq w) first (s_userId session)
                     guildId (s_channelId session) (clock w)])%list /\
    effects w' =
      (effects w
       ++ [ESend (s_bot session) (s_channelId session)
                 ("阅后即焚模式已关闭。消息将在 " ++ show (recallDelay config)
                  ++ " 秒后被销毁")
                 (Resolved (first :: more))])%list /\
    started w' =
      (started w ++ [JBurn (s_userId session) guildId (s_channelId session)
                           (s_bot session)])%list /\
    clock w' = clock w.
Proof.
  unfold deactivate.
  rewrite run_bind, run_await. cbn [exec].
  destruct (send_answers w (s_bot session) (s_channelId session)
              ("阅后即焚模式已关闭。消息将在 " ++ show (recallDelay config)
               ++ " 秒后被销毁")) as [first [more Hs]].
  rewrite Hs.
  match goal with |- context [run env _ ?x] => set (w1 := x) end.
  rewrite run_bind, run_bind, run_call. cbn [exec].
  rewrite run_try_catch, run_await. cbn [exec]. rewrite store_accepts.
  rewrite run_bind, run_call. cbn [exec run].
  exists first, more. eexists. split; [reflexivity |].
  subst w1. cbn [users messages messageSeq effects started clock
                 set_messageSeq set_messages add_effect set_started].
  repeat split.
Qed.

End Open_close.

Lemma targets_app a b : targets (a ++ b) = (targets a ++ targets b)%list.
Proof. apply flat_map_app. Qed.




(** When the event of the closing command's own message also reaches the
    listener on [message], that message is captured like any other the user
    sends during the session, and the burn deletes four. *)
Example open_then_close_with_listener :
  let w' := serve defaultConfig kindEnv
                  [Enable (alice "g1" "m1"); Incoming (alice "g1" "m2");
                   Disable (alice "g1" "m2"); Begin]
                  (emptyWorld 1000 ["bot"]) in
  map (fun t => snd t) (targets (effects w')) = ["m1"; "n0"; "m2"; "n1"].
Proof. vm_compute. reflexivity. Qed.

(** ** Further properties of the handlers *)

(** *** The role checks *)

(** The two role checks pass together exactly when the bot's level is above
    the sender's. *)
Lemma permitted_iff_outranks (env : Env) (session : Session) (w : World) :
  permitted env session w <-> outranks env session w.
Proof.
  unfold permitted, outranks.
  rewrite checkBotPermission_run, checkUserRole_run.
  destruct (truthy (s_guildId session)) as [guildId |].
  - destruct (getGroupMemberInfo env w guildId (s_bot session)) as [botRole | e1] eqn:Eb;
      destruct (getGroupMemberInfo env w guildId (s_userId session)) as [userRole | e2] eqn:Eu.
    + split.
      * intros [H1 H2]. exists guildId, userRole, botRole.
        split; [reflexivity |]. split; [exact Eu |]. split; [exact Eb |].
        destruct userRole, botRole; simpl in *; try discriminate; lia.
      * intros (g & ur & br & Hg & Hu & Hb & Hr).
        injection Hg as <-. rewrite Eu in Hu. rewrite Eb in Hb.
        injection Hu as <-. injection Hb as <-.
        destruct userRole, botRole; simpl in *; try lia; split; reflexivity.
    + split.
      * intros [_ H]. discriminate H.
      * intros (g & ur & br & Hg & Hu & _). injection Hg as <-. congruence.
    + split.
      * intros [H _]. discriminate H.
      * intros (g & ur & br & Hg & _ & Hb & _). injection Hg as <-. congruence.
    + split.
      * intros [H _]. discriminate H.
      * intros (g & ur & br & Hg & _ & Hb & _). injection Hg as <-. congruence.
  - split.
    + intros [H _]. discriminate H.
    + intros (g & _ & _ & Hg & _). discriminate Hg.
Qed.

(** The two role checks never throw and change nothing but the log; a
    member look-up that fails counts as a check that fails.  Together they
    pass exactly when the event comes from a group in which the platform
    reports both roles and the bot's level is above the sender's. *)
Theorem role_checks_pass_iff_bot_outranks_user (env : Env) (session : Session)
    (w : World) :
  (exists b w', run env (checkBotPermission session) w = (Resolved b, w') /\
                untouched w w') /\
  (exists b w', run env (checkUserRole session) w = (Resolved b, w') /\
                untouched w w') /\
  (permitted env session w <-> outranks env session w).
Proof.
  split; [| split; [| apply permitted_iff_outranks]].
  - rewrite checkBotPermission_run.
    destruct (truthy (s_guildId session)) as [guildId |];
      [| eexists; eexists; split; [reflexivity | apply untouched_refl]].
    destruct (getGroupMemberInfo env w guildId (s_bot session));
      eexists; eexists; (split; [reflexivity |]);
      [apply untouched_refl | apply untouched_log].
  - rewrite checkUserRole_run.
    destruct (truthy (s_guildId session)) as [guildId |];
      [| eexists; eexists; split; [reflexivity | apply untouched_refl]].
    destruct (getGroupMemberInfo env w guildId (s_userId session));
      [| eexists; eexists; split; [reflexivity | apply untouched_log]].
    destruct (getGroupMemberInfo env w guildId (s_bot session));
      eexists; eexists; (split; [reflexivity |]);
      [apply untouched_refl | apply untouched_log].
Qed.

(** *** The opening command *)

(** A program that ends in [Ret None] answers no reply. *)
Lemma bind_no_reply (env : Env) {A} (p : Prog A) (f : A -> Prog (option string)) w :
  (forall a w1 reply, fst (run env (f a) w1) <> Resolved (Some reply)) ->
  forall reply, fst (run env (bind p f) w) <> Resolved (Some reply).
Proof.
  intros H reply. rewrite run_bind. destruct (run env p w) as [[a | e] w1].
  - apply H.
  - discriminate.
Qed.

Lemma activate_no_reply (config : Config) (env : Env) session guildId w reply :
  fst (run env (activate config session guildId) w) <> Resolved (Some reply).
Proof.
  unfold activate. revert reply.
  repeat (apply bind_no_reply; intros).
  simpl. discriminate.
Qed.

(** [enable] either turns the command down, with a reply and nothing
    changed but the log, or it answers no reply, and then the command came
    from a group in which the bot's level is above the sender's, the sender
    had no session in any group and the group was below its maximum.  So a
    session is never opened for a user the bot could not delete the messages
    of, nor for one who has a session, nor in a group that is full. *)
Theorem enable_acts_only_when_allowed (config : Config) (env : Env)
    (session : Session) (w : World) :
  let end_ := run env (enable config session) w in
  (exists reply, fst end_ = Resolved (Some reply) /\ untouched w (snd end_)) \/
  ((forall reply, fst end_ <> Resolved (Some reply)) /\
   exists guildId,
     truthy (s_guildId session) = Some guildId /\
     outranks env session w /\
     filter (user_matches (byUser (s_userId session))) (users w) = [] /\
     Z.of_nat (List.length (sessionsIn guildId w)) < maxUsers config).
Proof.
  intro end_. subst end_.
  destruct (enable_guards config env session w)
    as [[reply [w' [Hrun Hu]]] | [g (Hg & Hp & Hnone & Hcap & Hrun)]].
  - left. exists reply. rewrite Hrun. split; [reflexivity | exact Hu].
  - right. split.
    + intro reply. rewrite Hrun. apply activate_no_reply.
    + exists g. split; [exact Hg |]. split; [apply permitted_iff_outranks; exact Hp |].
      split; [exact Hnone | exact Hcap].
Qed.

(** What is left of [activate] once the two rows are written and the timer
    is armed: the notice and its row. *)
Lemma notice_writes_no_session (P : forall R, Cmd R -> Prop) bot channelId text
    userId guildId now (warn : string) :
  (forall b c t, P _ (SendMessage b c t)) ->
  (forall m u g c t, P _ (CreateMessage m u g c t)) ->
  (forall l t e, P _ (Log l t e)) ->
  within P (notificationMsg <- await (SendMessage bot channelId text) ;;
            match notificationMsg with
            | first :: _ =>
                try_catch (await (CreateMessage first userId guildId channelId now))
                          (fun err => call (Log LWarn warn (Some err)))
            | [] => Ret tt
            end ;;
            Ret (@None string)).
Proof. intros. footprint_with ltac:(auto). Qed.

(** The store failing under [enable].  When the store rejects the insert of
    the session, the command fails and nothing has changed.  When it takes the
    session and rejects the row of the command's own message, the command
    fails with the session on record and nothing else done: no timer is armed
    for its expiry and no notice is sent. *)
Theorem enable_when_store_rejects (config : Config) (env : Env)
    (session : Session) (guildId : GuildId) (w : World) (e : Err) :
  truthy (s_guildId session) = Some guildId ->
  permitted env session w ->
  filter (user_matches (byUser (s_userId session))) (users w) = [] ->
  Z.of_nat (List.length (sessionsIn guildId w)) < maxUsers config ->
  let w1 := set_userSeq (userSeq w + 1)
              (set_users (users w ++ [newSession config session guildId w]) w) in
  (create env w = Rejected e ->
   run env (enable config session) w = (Rejected e, w)) /\
  (create env w = Resolved tt -> create env w1 = Rejected e ->
   run env (enable config session) w = (Rejected e, w1) /\
   timers w1 = timers w /\ effects w1 = effects w /\ messages w1 = messages w).
Proof.
  intros Hg Hp Hnone Hcap w1.
  rewrite (enable_passes config env session guildId w Hg Hp Hnone Hcap).
  unfold activate. rewrite run_bind, run_call. cbn [exec].
  rewrite run_bind, run_await. cbn [exec]. split.
  - intro Hc. rewrite Hc. reflexivity.
  - intros Hc Hc1. rewrite Hc. fold (newSession config session guildId w). fold w1.
    rewrite run_bind, run_await. cbn [exec]. rewrite Hc1.
    repeat split.
Qed.

(** The first insert is taken, the second is not. *)
Lemma enable_when_store_rejects_witness :
  permitted storeFull (alice "g1" "m1") (emptyWorld 1000 ["bot"]) /\
  run storeFull (enable defaultConfig (alice "g1" "m1")) (emptyWorld 1000 ["bot"])
  = (Rejected "full",
     mkWorld [mkUser 1 "alice" "g1" "c1" 1000 3601000] 2 [] 1 1000 ["bot"] [] [] [] []).
Proof.
  assert (H : permitted storeFull (alice "g1" "m1") (emptyWorld 1000 ["bot"]))
    by (split; reflexivity).
  split; [exact H |].
  exact (proj1 (proj2 (enable_when_store_rejects defaultConfig storeFull
                         (alice "g1" "m1") "g1" (emptyWorld 1000 ["bot"]) "full"
                         eq_refl H eq_refl ltac:(simpl; lia))
                        eq_refl eq_refl)).
Defined.



(** *** What a burn leaves *)

Lemma since_started l w w' : since (set_started l w) w' = since w w'.
Proof. reflexivity. Qed.

(** The state after a burn, whatever the batch. *)
Lemma burn_outcome (config : Config) (env : Env)
    (userId : UserId) (guildId : GuildId) (channelId : ChannelId) (bot : Bot)
    (w : World) :
  let batch := filter (message_matches (byUserGuild userId guildId)) (messages w) in
  let w' := snd (run env (burnAfterReading config userId guildId channelId bot) w) in
  fst (run env (burnAfterReading config userId guildId channelId bot) w) = Resolved tt /\
  users w' = closedFor userId guildId (users w) /\
  timers w' = timers w /\ started w' = started w /\ messageSeq w' = messageSeq w /\
  exists outs,
    List.length outs = List.length batch /\
    messages w' = without (removed batch outs) (messages w) /\
    effects w' = (effects w ++ since w w')%list /\
    deletions (since w w') = attempts bot batch outs /\
    targets (since w w') = map (targetOf bot) batch /\
    sends (since w w') =
      match batch with
      | [] => []
      | _ :: _ => [(bot, channelId, "感谢使用阅后即焚")]
      end.
Proof.
  intros batch w'. subst w'. rewrite burnAfterReading_run.
  set (w1 := set_users _ w).
  pose proof (batchRecallMessages_run config env userId guildId channelId bot w1)
    as [Hr H].
  change (filter (message_matches (byUserGuild userId guildId)) (messages w1))
    with batch in H.
  split; [exact Hr |].
  destruct batch as [| m0 ms0] eqn:Hbatch.
  - rewrite H. cbn [users timers started messageSeq messages effects add_log set_users w1].
    repeat split. exists []. split; [reflexivity |].
    split; [symmetry; apply without_nil |].
    rewrite since_same by reflexivity. rewrite app_nil_r. repeat split.
  - rewrite <- Hbatch in *. destruct H as [outs [r [Hlen Hb]]].
    destruct Hb as (B1 & B2 & B3 & B4 & B5 & B6 & B7 & B8 & B9 & B10).
    change (effects w1) with (effects w) in B9.
    change (messages w1) with (messages w) in B3.
    split; [exact B1 |]. split; [exact B7 |]. split; [exact B8 |]. split; [exact B4 |].
    exists outs. split; [exact Hlen |]. split; [exact B3 |].
    rewrite (since_app _ _ _ B9). split; [exact B9 |]. split; [| split].
    + cbn [deletions filter].
      fold (deletions (paced (batchRecallInterval config * 1000) (attempts bot batch outs)
                         ++ [ESend bot channelId "感谢使用阅后即焚" r])).
      rewrite deletions_app, deletions_paced. simpl. apply app_nil_r.
    + cbn [targets flat_map app].
      fold (targets (paced (batchRecallInterval config * 1000) (attempts bot batch outs)
                       ++ [ESend bot channelId "感谢使用阅后即焚" r])).
      rewrite targets_app, (targets_paced _ bot batch outs Hlen). simpl.
      rewrite app_nil_r. reflexivity.
    + change (sends (ESleep (recallDelay config * 1000)
                       :: paced (batchRecallInterval config * 1000)
                                (attempts bot batch outs)
                       ++ [ESend bot channelId "感谢使用阅后即焚" r]))
        with (sends (paced (batchRecallInterval config * 1000) (attempts bot batch outs)
                       ++ [ESend bot channelId "感谢使用阅后即焚" r])).
      rewrite sends_app, sends_paced. reflexivity.
Qed.

(** The burn the closing command starts is the burn. *)
Lemma perform_burn_run (config : Config) (env : Env) userId guildId channelId bot w :
  run env (perform config (JBurn userId guildId channelId bot)) w
  = run env (burnAfterReading config userId guildId channelId bot) w.
Proof.
  unfold perform. rewrite run_try_catch.
  pose proof (burn_outcome config env userId guildId channelId bot w) as [H _].
  destruct (run env (burnAfterReading config userId guildId channelId bot) w) as [o w'].
  simpl in H. subst o. reflexivity.
Qed.

Lemma filter_matches_snoc userId guildId l rows :
  Forall (fun r => m_userId r = userId /\ m_guildId r = guildId) rows ->
  filter (message_matches (byUserGuild userId guildId)) (l ++ rows)
  = (filter (message_matches (byUserGuild userId guildId)) l ++ rows)%list.
Proof.
  intro H. rewrite filter_app. f_equal. apply filter_all.
  intros r Hin. rewrite Forall_forall in H. destruct (H r Hin) as [Hu Hg].
  rewrite message_matches_byUserGuild, Hu, Hg, !String.eqb_refl. reflexivity.
Qed.

Lemma noticeRow_matches env ids userId guildId channelId w :
  Forall (fun r => m_userId r = userId /\ m_guildId r = guildId)
         (noticeRow env ids userId guildId channelId w).
Proof.
  unfold noticeRow. destruct ids; [constructor |].
  destruct (create env w); repeat constructor.
Qed.

(** *** The closing command *)

(** A closing command from a user with no session in the group of the
    command (or from outside a group) is turned down: it answers a reply and
    changes nothing but the log, so nothing is sent by the plugin, nothing is
    captured and no burn is started.  When the user has a session in another
    group, the reply has that group's id in it. *)
Theorem disable_without_session (config : Config) (env : Env)
    (session : Session) (w : World) :
  (forall guildId,
      truthy (s_guildId session) = Some guildId ->
      filter (user_matches (byUserGuild (s_userId session) guildId)) (users w) = []) ->
  exists reply w',
    run env (disable config session) w = (Resolved (Some reply), w') /\
    untouched w w' /\
    (forall guildId r others,
        truthy (s_guildId session) = Some guildId ->
        filter (user_matches (byUser (s_userId session))) (users w) = r :: others ->
        mentions reply (u_guildId r)).
Proof.
  intro Hnone. unfold disable.
  destruct (truthy (s_guildId session)) as [guildId |] eqn:Hg.
  - rewrite run_bind, run_await. cbn [exec]. rewrite (Hnone guildId eq_refl).
    rewrite run_bind, run_await. cbn [exec].
    destruct (filter (user_matches (byUser (s_userId session))) (users w))
      as [| existingRecord rest] eqn:Hother.
    + eexists. exists w. split; [reflexivity |]. split; [apply untouched_refl |].
      intros g r others _ H. discriminate H.
    + rewrite run_bind.
      destruct (describeGuild_run env (s_bot session) (u_guildId existingRecord) w)
        as [info [w' [Hrun [Hm Hw]]]].
      rewrite Hrun. eexists. exists w'. split; [reflexivity |]. split.
      * destruct Hw as [-> | [e ->]]; [apply untouched_refl | apply untouched_log].
      * intros g r others _ H. injection H as <- _.
        apply mentions_within. exact Hm.
  - eexists. exists w. split; [reflexivity |]. split; [apply untouched_refl |].
    intros g r others H. discriminate H.
Qed.

(** The user whose session is in [g2] closes in [g1]. *)
Lemma disable_without_session_witness :
  exists reply w',
    run kindEnv (disable defaultConfig (alice "g1" "m1")) enabledElsewhere
    = (Resolved (Some reply), w') /\
    untouched enabledElsewhere w' /\ mentions reply "g2".
Proof.
  destruct (disable_without_session defaultConfig kindEnv (alice "g1" "m1")
              enabledElsewhere)
    as [reply [w' (H1 & H2 & H3)]].
  - intros guildId H. injection H as <-. reflexivity.
  - exists reply, w'. split; [exact H1 |]. split; [exact H2 |].
    exact (H3 "g1" (mkUser 1 "alice" "g2" "c2" 1000 3601000) [] eq_refl eq_refl).
Defined.

(** When the closing notice cannot be sent, the closing command fails and
    has done nothing but try to send: the session stays on record, nothing is
    captured and no burn is started. *)
Theorem disable_when_notice_fails (config : Config) (env : Env)
    (session : Session) (guildId : GuildId) (w : World)
    (r : BurnAfterReadingUser) (others : list BurnAfterReadingUser) (e : Err) :
  truthy (s_guildId session) = Some guildId ->
  filter (user_matches (byUserGuild (s_userId session) guildId)) (users w)
    = r :: others ->
  sendMessage env w (s_bot session) (s_channelId session) (closingNotice config)
    = Rejected e ->
  run env (disable config session) w =
  (Rejected e,
   add_effect (ESend (s_bot session) (s_channelId session) (closingNotice config)
                     (Rejected e)) w).
Proof.
  intros Hg Hs He. unfold disable. rewrite Hg, run_bind, run_await. cbn [exec].
  rewrite Hs. unfold deactivate. rewrite run_bind, run_await. cbn [exec].
  fold (closingNotice config). rewrite He. reflexivity.
Qed.

(** The user closes while the platform is out of reach. *)
Lemma disable_when_notice_fails_witness :
  users (snd (run sendFails (disable defaultConfig (alice "g1" "m2")) justEnabled))
  = users justEnabled /\
  started (snd (run sendFails (disable defaultConfig (alice "g1" "m2")) justEnabled))
  = [].
Proof.
  rewrite (disable_when_notice_fails defaultConfig sendFails (alice "g1" "m2") "g1"
             justEnabled (mkUser 1 "alice" "g1" "c1" 1000 3601000) [] "offline"
             eq_refl eq_refl eq_refl).
  split; reflexivity.
Defined.

(** What [deactivate] does once its notice is sent. *)
Lemma deactivate_run_sent (config : Config) (env : Env) session guildId w ids :
  sendMessage env w (s_bot session) (s_channelId session) (closingNotice config)
    = Resolved ids ->
  let sent := add_effect (ESend (s_bot session) (s_channelId session)
                                (closingNotice config) (Resolved ids)) w in
  let w1 := snd (run env (deactivate config session guildId) w) in
  fst (run env (deactivate config session guildId) w) = Resolved None /\
  users w1 = users w /\ timers w1 = timers w /\
  messages w1 =
    (messages w
     ++ noticeRow env ids (s_userId session) guildId (s_channelId session) sent)%list /\
  effects w1 = effects sent /\
  started w1 =
    (started w ++ [JBurn (s_userId session) guildId (s_channelId session)
                         (s_bot session)])%list.
Proof.
  intros Hs sent w1. subst w1. unfold deactivate.
  rewrite run_bind, run_await. cbn [exec]. fold (closingNotice config).
  rewrite Hs. fold sent. unfold noticeRow.
  destruct ids as [| first more].
  - cbn. rewrite app_nil_r. repeat split.
  - rewrite run_bind, run_bind, run_call. cbn [exec].
    rewrite run_try_catch, run_await. cbn [exec].
    destruct (create env sent); cbn; rewrite ?app_nil_r; repeat split.
Qed.

(** Closing a session.  The command sends the closing notice, captures it
    when the platform gave an id for it and the store takes the row, and
    starts the burn without waiting for it: when the command is done the
    session is still on record.  It is the burn, once it runs, that removes
    the session of this user in this group and no other, and that attempts
    the deletion of every row the ledger then holds for the user and group,
    the closing notice among them when it was captured. *)
Theorem disable_then_burn_closes (config : Config) (env : Env)
    (session : Session) (guildId : GuildId) (w : World)
    (r : BurnAfterReadingUser) (others : list BurnAfterReadingUser)
    (ids : list MessageId) :
  truthy (s_guildId session) = Some guildId ->
  filter (user_matches (byUserGuild (s_userId session) guildId)) (users w)
    = r :: others ->
  started w = [] ->
  sendMessage env w (s_bot session) (s_channelId session) (closingNotice config)
    = Resolved ids ->
  let sent := add_effect (ESend (s_bot session) (s_channelId session)
                                (closingNotice config) (Resolved ids)) w in
  let w1 := deliver config env (Disable session) w in
  let w2 := deliver config env Begin w1 in
  users w1 = users w /\
  since w w1 = [ESend (s_bot session) (s_channelId session) (closingNotice config)
                      (Resolved ids)] /\
  messages w1 =
    (messages w
     ++ noticeRow env ids (s_userId session) guildId (s_channelId session) sent)%list /\
  started w1 = [JBurn (s_userId session) guildId (s_channelId session) (s_bot session)] /\
  users w2 = closedFor (s_userId session) guildId (users w) /\
  started w2 = [] /\
  targets (since w1 w2) =
    map (targetOf (s_bot session))
        (filter (message_matches (byUserGuild (s_userId session) guildId)) (messages w)
         ++ noticeRow env ids (s_userId session) guildId (s_channelId session) sent).
Proof.
  intros Hg Hs Hst Hsend sent w1 w2.
  assert (E1 : w1 = snd (run env (deactivate config session guildId) w)).
  { subst w1. cbn [deliver]. unfold disable.
    rewrite Hg, run_bind, run_await. cbn [exec]. rewrite Hs. reflexivity. }
  destruct (deactivate_run_sent config env session guildId w ids Hsend)
    as (_ & D1 & D2 & D3 & D4 & D5).
  rewrite <- E1 in D1, D2, D3, D4, D5. rewrite Hst in D5. cbn [app] in D5.
  fold sent in D3.
  split; [exact D1 |].
  split; [apply since_app; rewrite D4; reflexivity |].
  split; [exact D3 |]. split; [exact D5 |].
  subst w2. cbn [deliver]. rewrite D5, perform_burn_run.
  pose proof (burn_outcome config env (s_userId session) guildId (s_channelId session)
                (s_bot session) (set_started [] w1))
    as (_ & B1 & _ & B2 & _ & outs & _ & _ & _ & _ & B3 & _).
  cbn [users started messages set_started] in B1, B2, B3.
  rewrite since_started in B3.
  split; [rewrite B1, D1; reflexivity |]. split; [exact B2 |].
  rewrite B3, D3, filter_matches_snoc by apply noticeRow_matches. reflexivity.
Qed.

(** A user with a session and nothing captured closes it. *)
Lemma disable_then_burn_closes_witness :
  let w2 := serve defaultConfig kindEnv [Disable (alice "g1" "m2"); Begin] justEnabled in
  users w2 = [] /\ started w2 = [].
Proof.
  destruct (disable_then_burn_closes defaultConfig kindEnv (alice "g1" "m2") "g1"
              justEnabled (mkUser 1 "alice" "g1" "c1" 1000 3601000) [] ["n0"]
              eq_refl eq_refl eq_refl eq_refl)
    as (_ & _ & _ & _ & H1 & H2 & _).
  split; [exact H1 | exact H2].
Defined.

(** *** The expiry of a session *)

(** The callback of an expiry, once its notice is sent: the notice is
    captured when it can be, and the rest is the burn. *)
Lemma onExpire_run_sent (config : Config) (env : Env) userId guildId channelId bot w ids :
  let logged := add_log (expiryLine userId guildId) w in
  sendMessage env logged bot channelId (expiryNotice config userId) = Resolved ids ->
  let sent := add_effect (ESend bot channelId (expiryNotice config userId)
                                (Resolved ids)) logged in
  exists wN,
    users wN = users w /\ timers wN = timers w /\ started wN = started w /\
    messages wN = (messages w ++ noticeRow env ids userId guildId channelId sent)%list /\
    effects wN = effects sent /\
    run env (onExpire config userId guildId channelId bot) w
    = run env (burnAfterReading config userId guildId channelId bot) wN.
Proof.
  intros logged Hs sent.
  assert (Hburn : forall w0,
             match run env (burnAfterReading config userId guildId channelId bot) w0 with
             | (Resolved a, w') => (Resolved a, w')
             | (Rejected e, w') =>
                 run env (call (Log LWarn "处理用户过期失败:" (Some e))) w'
             end = run env (burnAfterReading config userId guildId channelId bot) w0).
  { intro w0.
    pose proof (burn_outcome config env userId guildId channelId bot w0) as [H _].
    destruct (run env (burnAfterReading config userId guildId channelId bot) w0)
      as [o w']. simpl in H. subst o. reflexivity. }
  unfold onExpire. rewrite run_try_catch, run_bind, run_call. cbn [exec].
  fold (expiryLine userId guildId). fold logged.
  rewrite run_bind, run_await. cbn [exec]. fold (expiryNotice config userId).
  rewrite Hs. fold sent. rewrite run_bind. unfold noticeRow.
  destruct ids as [| first more].
  - cbn [run]. exists sent. rewrite Hburn, app_nil_r. repeat split.
  - rewrite run_bind, run_call. cbn [exec].
    rewrite run_try_catch, run_await. cbn [exec].
    destruct (create env sent).
    + cbn [run]. rewrite Hburn.
      match goal with
      | |- exists wN, _ /\ _ /\ _ /\ _ /\ _ /\ run _ _ ?x = _ => exists x
      end.
      repeat split.
    + rewrite run_call. cbn [exec]. rewrite Hburn, app_nil_r.
      match goal with
      | |- exists wN, _ /\ _ /\ _ /\ _ /\ _ /\ run _ _ ?x = _ => exists x
      end.
      repeat split.
Qed.

(** The callback of an expiry whose notice cannot be sent. *)
Lemma onExpire_run_failed (config : Config) (env : Env) userId guildId channelId bot w e :
  sendMessage env (add_log (expiryLine userId guildId) w) bot channelId
              (expiryNotice config userId) = Rejected e ->
  run env (onExpire config userId guildId channelId bot) w =
  (Resolved tt,
   add_log (mkLog LWarn "处理用户过期失败:" (Some e))
     (add_effect (ESend bot channelId (expiryNotice config userId) (Rejected e))
                 (add_log (expiryLine userId guildId) w))).
Proof.
  intro Hs. unfold onExpire.
  rewrite run_try_catch, run_bind, run_call. cbn [exec].
  fold (expiryLine userId guildId).
  rewrite run_bind, run_await. cbn [exec]. fold (expiryNotice config userId).
  rewrite Hs, run_call. reflexivity.
Qed.

(** An expiry whose notice cannot be sent.  The timer that fires is
    disarmed and its callback gives up on the failed send with a warning in
    the log: the session stays on record with no timer left for it, the ledger
    is as it was and nothing is deleted. *)
Theorem expiry_when_notice_fails (config : Config) (env : Env) (n : nat)
    (due delay : Z) (userId : UserId) (guildId : GuildId) (channelId : ChannelId)
    (bot : Bot) (w : World) (e : Err) :
  nth_error (timers w) n = Some (mkTimer due delay (JExpire userId guildId channelId bot)) ->
  due <= clock w ->
  let fired := add_log (expiryLine userId guildId)
                       (set_timers (drop_nth n (timers w)) w) in
  sendMessage env fired bot channelId (expiryNotice config userId) = Rejected e ->
  let w' := deliver config env (Fire n) w in
  w' = add_log (mkLog LWarn "处理用户过期失败:" (Some e))
         (add_effect (ESend bot channelId (expiryNotice config userId) (Rejected e))
                     fired) /\
  users w' = users w /\ messages w' = messages w /\
  timers w' = drop_nth n (timers w) /\ started w' = started w /\
  targets (since w w') = [].
Proof.
  intros Hn Hdue fired Hs w'.
  assert (E : w' = add_log (mkLog LWarn "处理用户过期失败:" (Some e))
                     (add_effect (ESend bot channelId (expiryNotice config userId)
                                        (Rejected e)) fired)).
  { subst w'. cbn [deliver]. rewrite Hn. cbn [t_due t_job].
    assert (Hd : (due <=? clock w) = true) by (apply Z.leb_le; exact Hdue).
    rewrite Hd. cbn [perform].
    rewrite (onExpire_run_failed config env userId guildId channelId bot _ e Hs).
    reflexivity. }
  split; [exact E |]. rewrite E. repeat split.
  erewrite since_app; [| reflexivity]. reflexivity.
Qed.

(** The expiry comes while the platform is out of reach. *)
Lemma expiry_when_notice_fails_witness :
  users (deliver defaultConfig sendFails (Fire 0) expiryDue) = users expiryDue /\
  timers (deliver defaultConfig sendFails (Fire 0) expiryDue) = [].
Proof.
  destruct (expiry_when_notice_fails defaultConfig sendFails 0 3601000 3600000
              "alice" "g1" "c1" "bot" expiryDue "offline" eq_refl
              ltac:(simpl; lia) eq_refl)
    as (_ & H1 & _ & H2 & _).
  split; [exact H1 | exact H2].
Defined.

(** An expiry whose notice is sent.  The timer is disarmed; the notice is
    captured when the platform gave an id for it and the store takes the row;
    then the burn removes the session of the user in the group, whatever
    expiry that session has on record, and attempts the deletion of every row
    the ledger holds for the user and group, the notice last.  Nothing else is
    sent but the notice and, at the end of the burn, the thanks. *)
Theorem expiry_burns (config : Config) (env : Env) (n : nat)
    (due delay : Z) (userId : UserId) (guildId : GuildId) (channelId : ChannelId)
    (bot : Bot) (w : World) (ids : list MessageId) :
  nth_error (timers w) n = Some (mkTimer due delay (JExpire userId guildId channelId bot)) ->
  due <= clock w ->
  let fired := add_log (expiryLine userId guildId)
                       (set_timers (drop_nth n (timers w)) w) in
  sendMessage env fired bot channelId (expiryNotice config userId) = Resolved ids ->
  let sent := add_effect (ESend bot channelId (expiryNotice config userId)
                                (Resolved ids)) fired in
  let batch := (filter (message_matches (byUserGuild userId guildId)) (messages w)
                ++ noticeRow env ids userId guildId channelId sent)%list in
  let w' := deliver config env (Fire n) w in
  users w' = closedFor userId guildId (users w) /\
  timers w' = drop_nth n (timers w) /\
  started w' = started w /\
  targets (since w w') = map (targetOf bot) batch /\
  sends (since w w') =
    (bot, channelId, expiryNotice config userId)
      :: match batch with
         | [] => []
         | _ :: _ => [(bot, channelId, "感谢使用阅后即焚")]
         end.
Proof.
  intros Hn Hdue fired Hs sent batch w'.
  subst w'. cbn [deliver]. rewrite Hn. cbn [t_due t_job].
  assert (Hd : (due <=? clock w) = true) by (apply Z.leb_le; exact Hdue).
  rewrite Hd. cbn [perform].
  set (w0 := set_timers (drop_nth n (timers w)) w).
  destruct (onExpire_run_sent config env userId guildId channelId bot w0 ids Hs)
    as [wN (N1 & N2 & N3 & N4 & N5 & Hrun)].
  rewrite Hrun.
  pose proof (burn_outcome config env userId guildId channelId bot wN)
    as (_ & B1 & B2 & B3 & _ & outs & _ & _ & B4 & _ & B5 & B6).
  fold fired in N4. fold sent in N4, N5.
  assert (Hb : filter (message_matches (byUserGuild userId guildId)) (messages wN)
               = batch).
  { rewrite N4. apply filter_matches_snoc. apply noticeRow_matches. }
  rewrite Hb in B5, B6.
  split; [rewrite B1, N1; reflexivity |].
  split; [rewrite B2, N2; reflexivity |].
  split; [rewrite B3, N3; reflexivity |].
  assert (Hsince : since w (snd (run env (burnAfterReading config userId guildId
                                                           channelId bot) wN))
                   = ESend bot channelId (expiryNotice config userId) (Resolved ids)
                       :: since wN (snd (run env (burnAfterReading config userId guildId
                                                                   channelId bot) wN))).
  { apply since_app. rewrite B4, N5. cbn [effects add_effect sent fired add_log
                                          set_timers w0].
    rewrite <- app_assoc. reflexivity. }
  rewrite Hsince. split.
  - cbn [targets flat_map app]. exact B5.
  - cbn [sends flat_map app]. f_equal. exact B6.
Qed.

(** The expiry of the sample session, on the kind platform. *)
Lemma expiry_burns_witness :
  users (deliver defaultConfig kindEnv (Fire 0) expiryDue) = [] /\
  targets (since expiryDue (deliver defaultConfig kindEnv (Fire 0) expiryDue))
  = [("bot", "c1", "m1"); ("bot", "c1", "n0")].
Proof.
  destruct (expiry_burns defaultConfig kindEnv 0 3601000 3600000
              "alice" "g1" "c1" "bot" expiryDue ["n0"] eq_refl
              ltac:(simpl; lia) eq_refl)
    as (H1 & _ & _ & H2 & _).
  split; [exact H1 | exact H2].
Defined.

(** *** From capture to burn *)

(** A message the listener captures is deleted by the next burn of its
    sender in its group: the burn attempts the rows the ledger held before,
    in their order, and then this message, in the channel it was sent in,
    whichever channel the burn is given. *)
Theorem captured_message_is_burnt (config : Config) (env : Env)
    (session : Session) (guildId : GuildId) (messageId : MessageId)
    (r : BurnAfterReadingUser) (others : list BurnAfterReadingUser)
    (channelId : ChannelId) (bot : Bot) (w : World) :
  truthy (s_guildId session) = Some guildId ->
  truthy (s_messageId session) = Some messageId ->
  filter (user_matches (byUserGuild (s_userId session) guildId)) (users w)
    = r :: others ->
  create env w = Resolved tt ->
  let w1 := snd (run env (onMessage session) w) in
  let w2 := snd (run env (burnAfterReading config (s_userId session) guildId
                                           channelId bot) w1) in
  targets (since w1 w2) =
    (map (targetOf bot)
         (filter (message_matches (byUserGuild (s_userId session) guildId)) (messages w))
     ++ [(bot, s_channelId session, messageId)])%list.
Proof.
  intros Hg Hm Hs Hc w1 w2.
  assert (Hst : stored (s_guildId session) = guildId).
  { destruct (s_guildId session) as [g |]; [| discriminate]. simpl in *.
    destruct (String.eqb g EmptyString); congruence. }
  assert (E : messages w1 =
              (messages w ++ [mkMessage (messageSeq w) messageId (s_userId session)
                                        guildId (s_channelId session) (clock w)])%list).
  { subst w1. unfold onMessage. rewrite Hg, Hm, run_bind, run_await. cbn [exec].
    rewrite Hs. unfold storeMessageForRecall. rewrite run_bind, run_call.
    cbn [exec detached run]. rewrite Hc, Hst. reflexivity. }
  pose proof (burn_outcome config env (s_userId session) guildId channelId bot w1)
    as (_ & _ & _ & _ & _ & outs & _ & _ & _ & _ & B & _).
  fold w2 in B. rewrite B, E, filter_matches_snoc by (repeat constructor).
  rewrite map_app. reflexivity.
Qed.

(** A message of the sample user, in a second channel. *)
Lemma captured_message_is_burnt_witness :
  let w1 := snd (run kindEnv (onMessage (mkSession "alice" (Some "g1") "c2" (Some "m9")
                                                   "bot")) fiveCaptured) in
  let w2 := snd (run kindEnv (burnAfterReading defaultConfig "alice" "g1" "c1" "bot")
                     w1) in
  In ("bot", "c2", "m9") (targets (since w1 w2)).
Proof.
  cbv zeta.
  pose proof (captured_message_is_burnt defaultConfig kindEnv
                (mkSession "alice" (Some "g1") "c2" (Some "m9") "bot") "g1" "m9"
                (mkUser 1 "alice" "g1" "c1" 1000 3601000) [] "c1" "bot" fiveCaptured
                eq_refl eq_refl eq_refl eq_refl) as H.
  cbv zeta in H. cbn [s_userId s_channelId] in H. rewrite H.
  apply in_or_app. right. left. reflexivity.
Defined.

Lemma filter_without q ids l :
  filter q (without ids l) = without ids (filter q l).
Proof.
  unfold without. rewrite !filter_twice. apply filter_ext. intro x. apply andb_comm.
Qed.

(** A deletion that failed is tried again.  The rows a burn could not
    delete stay in the ledger, so the next burn of the same user in the same
    group attempts exactly those, in their order, and no row that the first
    burn deleted. *)
Theorem failed_deletions_are_retried (config : Config) (env : Env)
    (userId : UserId) (guildId : GuildId) (channelId channelId' : ChannelId)
    (bot bot' : Bot) (w : World) :
  ledger_ok w ->
  let batch := filter (message_matches (byUserGuild userId guildId)) (messages w) in
  let w1 := snd (run env (burnAfterReading config userId guildId channelId bot) w) in
  let w2 := snd (run env (burnAfterReading config userId guildId channelId' bot') w1) in
  exists outs : list (Outcome unit),
    List.length outs = List.length batch /\
    deletions (since w w1) = attempts bot batch outs /\
    targets (since w1 w2) = map (targetOf bot') (without (removed batch outs) batch) /\
    (forall n m o,
        nth_error batch n = Some m -> nth_error outs n = Some o ->
        (In m (without (removed batch outs) batch) <-> resolved o = false)).
Proof.
  intros [Hasc _] batch w1 w2.
  pose proof (burn_outcome config env userId guildId channelId bot w)
    as (_ & _ & _ & _ & _ & outs & Hlen & B1 & _ & B2 & _).
  fold batch in Hlen, B1, B2. fold w1 in B1, B2.
  pose proof (burn_outcome config env userId guildId channelId' bot' w1)
    as (_ & _ & _ & _ & _ & outs' & _ & _ & _ & _ & B3 & _).
  fold w2 in B3.
  exists outs. split; [exact Hlen |]. split; [exact B2 |]. split.
  - rewrite B3, B1, filter_without. reflexivity.
  - intros n m o Hm Ho.
    assert (Hnd : NoDup (map m_id batch)).
    { apply ascending_NoDup. subst batch. apply ascending_filter. exact Hasc. }
    rewrite In_without, (removed_nth batch outs n m o Hnd Hm Ho).
    apply nth_error_In in Hm. destruct (resolved o); intuition congruence.
Qed.

(** The five captured messages, of which the third cannot be deleted: the
    second burn tries the third alone. *)
Lemma failed_deletions_are_retried_witness :
  let w1 := snd (run thirdFails (burnAfterReading defaultConfig "alice" "g1" "c1" "bot")
                     fiveCaptured) in
  let w2 := snd (run thirdFails (burnAfterReading defaultConfig "alice" "g1" "c1" "bot")
                     w1) in
  exists outs : list (Outcome unit),
    deletions (since fiveCaptured w1)
    = attempts "bot" (messages fiveCaptured) outs /\
    targets (since w1 w2)
    = map (targetOf "bot") (without (removed (messages fiveCaptured) outs)
                                    (messages fiveCaptured)).
Proof.
  destruct (failed_deletions_are_retried defaultConfig thirdFails "alice" "g1" "c1" "c1"
              "bot" "bot" fiveCaptured fiveCaptured_ok)
    as [outs (_ & H1 & H2 & _)].
  exists outs. split; [exact H1 | exact H2].
Defined.

(** *** One input at a time *)



(** Only the opening command adds a session, and it adds one at most, at
    the end of the table: a closing command, a message, a restart, time
    passing, a timer that fires and a burn that starts leave of the sessions
    on record a part, in their order. *)
Theorem only_enable_adds_a_session (config : Config) (env : Env)
    (i : Input) (w : World) :
  match i with
  | Enable session =>
      users (deliver config env i w) = users w \/
      exists guildId,
        truthy (s_guildId session) = Some guildId /\
        users (deliver config env i w)
        = (users w ++ [newSession config session guildId w])%list
  | _ => fewerUsers w (deliver config env i w)
  end.
Proof.
  destruct (deliver_users config env i w) as [H | [session [g (Hi & _ & _ & Hu)]]].
  - destruct i; try exact H. left.
    destruct (enable_users config env session w) as [E | [g (Hg & _ & _ & E)]].
    + exact E.
    + destruct H as [f Hf]. cbn [deliver] in Hf. rewrite E in Hf.
      exfalso. assert (Hl : (List.length (filter f (users w))
                             <= List.length (users w))%nat) by apply filter_length_le.
      rewrite <- Hf, length_app in Hl. simpl in Hl. lia.
  - subst i. right.
    destruct (enable_users config env session w) as [E | [g' (Hg & _ & _ & E)]].
    + cbn [deliver] in Hu. rewrite E in Hu. exfalso.
      assert (Hl : List.length (users w)
                   = List.length (users w ++ [newSession config session g w]))
        by (rewrite <- Hu; reflexivity).
      rewrite length_app in Hl. simpl in Hl. lia.
    + exists g'. split; [exact Hg | exact E].
Qed.

Lemma disable_arms_no_timer config session : within armsNoTimer (disable config session).
Proof. unfold disable, deactivate, describeGuild. footprint. Qed.

Lemma onMessage_arms_no_timer session : within armsNoTimer (onMessage session).
Proof. unfold onMessage, storeMessageForRecall. footprint. Qed.

Lemma perform_arms_no_timer config job : within armsNoTimer (perform config job).
Proof.
  destruct job; unfold perform, onExpire;
    footprint_with ltac:(first [ exact I
                               | apply burnAfterReading_within; intros; exact I ]).
Qed.

(** No handler disarms a timer.  The opening command and the recovery at
    start-up may arm timers and leave the armed ones as they are; a timer that
    fires when due is taken off and its callback arms none; every other input
    leaves the timers exactly as they are.  So the closing command and the
    burn it starts leave the timer of the session they close armed for the
    expiry that session had. *)
Theorem timers_outlive_the_session (config : Config) (env : Env)
    (i : Input) (w : World) :
  match i with
  | Enable _ | Ready => moreTimers w (deliver config env i w)
  | Fire n =>
      match nth_error (timers w) n with
      | Some t =>
          if t_due t <=? clock w
          then timers (deliver config env i w) = drop_nth n (timers w)
          else deliver config env i w = w
      | None => deliver config env i w = w
      end
  | Disable _ | Incoming _ | Elapse _ | Begin =>
      timers (deliver config env i w) = timers w
  end.
Proof.
  destruct i as [session | session | session | | ms | n |]; cbn [deliver].
  - apply run_moreTimers.
  - apply run_sameTimers. apply disable_arms_no_timer.
  - apply run_sameTimers. apply onMessage_arms_no_timer.
  - apply run_moreTimers.
  - destruct (0 <=? ms); reflexivity.
  - destruct (nth_error (timers w) n) as [t |]; [| reflexivity].
    destruct (t_due t <=? clock w); [| reflexivity].
    rewrite run_sameTimers by apply perform_arms_no_timer. reflexivity.
  - destruct (started w) as [| job rest]; [reflexivity |].
    rewrite run_sameTimers by apply perform_arms_no_timer. reflexivity.
Qed.

(** A session closed and opened again is ended by the timer of the first:
    at the hour of the first session the second, which had half an hour more
    to go, is burnt, and its own timer stays armed. *)
Example reopened_session_ends_early :
  let before := serve defaultConfig kindEnv (removelast reopened)
                      (emptyWorld 1000 ["bot"]) in
  let after := serve defaultConfig kindEnv reopened (emptyWorld 1000 ["bot"]) in
  map (fun r => (u_userId r, u_expiresAt r)) (users before) = [("alice", 5400000)] /\
  clock before = 3601000 /\
  users after = [] /\
  timers after = [mkTimer 5400000 3600000 (JExpire "alice" "g1" "c1" "bot")].
Proof. vm_compute. repeat split. Qed.

(** *** What is deleted *)

Lemma exec_noDeletion env R (c : Cmd R) w :
  deletesNothing R c -> noDeletion w (snd (exec env c w)).
Proof.
  unfold noDeletion. destruct c; simpl; try contradiction; intros _;
    try match goal with
        | |- context [create env w] => destruct (create env w); simpl
        end;
    first [ exists []; rewrite app_nil_r; split; reflexivity
          | eexists; split; reflexivity ].
Qed.

Lemma run_noDeletion env A (p : Prog A) w :
  within deletesNothing p -> targets (since w (snd (run env p w))) = [].
Proof.
  intro H.
  assert (Hn : noDeletion w (snd (run env p w))).
  { refine (within_run deletesNothing env noDeletion _ _ (exec_noDeletion env) p H w).
    - intro w0. exists []. rewrite app_nil_r. split; reflexivity.
    - intros w1 w2 w3 [l1 [E1 T1]] [l2 [E2 T2]]. exists (l1 ++ l2)%list.
      rewrite E2, E1, <- app_assoc, targets_app, T1, T2. split; reflexivity. }
  destruct Hn as [l [E T]]. rewrite (since_app _ _ _ E). exact T.
Qed.

Lemma enable_deletes_nothing config session : within deletesNothing (enable config session).
Proof.
  unfold enable, activate, checkBotPermission, checkUserRole, describeGuild,
    scheduleExpiration.
  footprint.
Qed.

Lemma disable_deletes_nothing config session :
  within deletesNothing (disable config session).
Proof. unfold disable, deactivate, describeGuild. footprint. Qed.

Lemma onMessage_deletes_nothing session : within deletesNothing (onMessage session).
Proof. unfold onMessage, storeMessageForRecall. footprint. Qed.

Lemma tidy_same env {A} (p : Prog A) :
  (forall w, effects (snd (run env p w)) = effects w /\
             messages (snd (run env p w)) = messages w) ->
  tidy env p.
Proof.
  intros H w. destruct (H w) as [He Hm]. split; [| split].
  - exists []. rewrite app_nil_r. exact He.
  - rewrite Hm. apply incl_refl.
  - rewrite (since_same _ _ He). intros t [].
Qed.

Lemma held_incl w w' t : incl (messages w') (messages w) -> held w' t -> held w t.
Proof. intros Hi [r [Hin H]]. exists r. split; [apply Hi; exact Hin | exact H]. Qed.

Lemma tidy_step w w1 w2 :
  ((exists l, effects w1 = (effects w ++ l)%list) /\
   incl (messages w1) (messages w) /\
   forall t, In t (targets (since w w1)) -> held w t) ->
  ((exists l, effects w2 = (effects w1 ++ l)%list) /\
   incl (messages w2) (messages w1) /\
   forall t, In t (targets (since w1 w2)) -> held w1 t) ->
  (exists l, effects w2 = (effects w ++ l)%list) /\
  incl (messages w2) (messages w) /\
  forall t, In t (targets (since w w2)) -> held w t.
Proof.
  intros ([l1 E1] & I1 & T1) ([l2 E2] & I2 & T2).
  assert (E : effects w2 = (effects w ++ l1 ++ l2)%list)
    by (rewrite E2, E1, <- app_assoc; reflexivity).
  split; [exists (l1 ++ l2)%list; exact E |].
  split; [eapply incl_tran; eassumption |].
  rewrite (since_app _ _ _ E). rewrite (since_app _ _ _ E1) in T1.
  rewrite (since_app _ _ _ E2) in T2.
  intros t Hin. rewrite targets_app in Hin. apply in_app_or in Hin.
  destruct Hin as [Hin | Hin]; [apply T1; exact Hin |].
  eapply held_incl; [exact I1 | apply T2; exact Hin].
Qed.

Lemma tidy_bind env {A B} (p : Prog A) (f : A -> Prog B) :
  tidy env p -> (forall a, tidy env (f a)) -> tidy env (bind p f).
Proof.
  intros Hp Hf w. rewrite run_bind. specialize (Hp w).
  destruct (run env p w) as [[a | e] w1]; [| exact Hp].
  eapply tidy_step; [exact Hp | apply Hf].
Qed.

Lemma tidy_try_catch env {A} (p : Prog A) (h : Err -> Prog A) :
  tidy env p -> (forall e, tidy env (h e)) -> tidy env (try_catch p h).
Proof.
  intros Hp Hh w. rewrite run_try_catch. specialize (Hp w).
  destruct (run env p w) as [[a | e] w1]; [exact Hp |].
  eapply tidy_step; [exact Hp | apply Hh].
Qed.

Lemma tidy_burn config env userId guildId channelId bot :
  tidy env (burnAfterReading config userId guildId channelId bot).
Proof.
  intro w.
  pose proof (burn_outcome config env userId guildId channelId bot w)
    as (_ & _ & _ & _ & _ & outs & _ & B1 & B2 & _ & B3 & _).
  split; [eexists; exact B2 |]. split.
  - rewrite B1. intros r Hr. apply In_without in Hr. tauto.
  - intros t Hin. rewrite B3 in Hin. apply in_map_iff in Hin.
    destruct Hin as [m [<- Hm]]. apply filter_In in Hm.
    exists m. split; [tauto | split; reflexivity].
Qed.

Lemma tidy_log env level text err : tidy env (call (Log level text err)).
Proof. apply tidy_same. intro w. rewrite run_call. split; reflexivity. Qed.

Lemma tidy_recoverOne config env user : tidy env (recoverOne config user).
Proof.
  unfold recoverOne. apply tidy_bind.
  - apply tidy_same. intro w. rewrite run_call. split; reflexivity.
  - intro now.
    assert (Hbots : tidy env (call Bots))
      by (apply tidy_same; intro w; rewrite run_call; split; reflexivity).
    destruct (now <? u_expiresAt user); (apply tidy_bind; [exact Hbots |]);
      intros [| bot rest]; try (apply tidy_same; intro w; split; reflexivity).
    + apply tidy_same. intro w. rewrite scheduleExpiration_run.
      destruct (_ <=? 0); split; reflexivity.
    + apply tidy_burn.
Qed.

Lemma tidy_recoverEach config env l : tidy env (recoverEach config l).
Proof.
  induction l as [| user l IH]; cbn [recoverEach].
  - apply tidy_same. intro w. split; reflexivity.
  - apply tidy_bind; [apply tidy_recoverOne | intro; exact IH].
Qed.

Lemma tidy_onReady config env : tidy env (onReady config).
Proof.
  unfold onReady. apply tidy_try_catch; [| intro; apply tidy_log].
  apply tidy_bind.
  - apply tidy_same. intro w. rewrite run_await. split; reflexivity.
  - intro l. apply tidy_bind; [apply tidy_recoverEach | intro; apply tidy_log].
Qed.

(** What a job deletes: rows of the ledger, or the notice it sent itself. *)
Lemma perform_deletes_captured config env job w t :
  In t (targets (since w (snd (run env (perform config job) w)))) ->
  held w t \/ justSent (since w (snd (run env (perform config job) w))) t.
Proof.
  destruct job as [userId guildId channelId bot | userId guildId channelId bot].
  - cbn [perform].
    destruct (sendMessage env (add_log (expiryLine userId guildId) w) bot channelId
                          (expiryNotice config userId)) as [ids | e] eqn:Hs.
    + destruct (onExpire_run_sent config env userId guildId channelId bot w ids Hs)
        as [wN (_ & _ & _ & N4 & N5 & Hrun)].
      rewrite Hrun.
      pose proof (burn_outcome config env userId guildId channelId bot wN)
        as (_ & _ & _ & _ & _ & outs & _ & _ & B2 & _ & B3 & _).
      set (w' := snd (run env (burnAfterReading config userId guildId channelId bot) wN))
        in *.
      assert (Hsince : since w w'
                       = ESend bot channelId (expiryNotice config userId) (Resolved ids)
                           :: since wN w').
      { apply since_app. rewrite B2, N5. cbn [effects add_effect add_log].
        rewrite <- app_assoc. reflexivity. }
      rewrite Hsince. cbn [targets flat_map app]. fold (targets (since wN w')).
      rewrite B3. intro Hin. apply in_map_iff in Hin. destruct Hin as [m [<- Hm]].
      apply filter_In in Hm. destruct Hm as [Hm _]. rewrite N4 in Hm.
      apply in_app_or in Hm. destruct Hm as [Hm | Hm].
      * left. exists m. split; [exact Hm | split; reflexivity].
      * right. unfold noticeRow in Hm. destruct ids as [| first more]; [destruct Hm |].
        destruct (create env _); [| destruct Hm].
        destruct Hm as [<- | []]. exists bot, (expiryNotice config userId), more.
        left. reflexivity.
    + rewrite (onExpire_run_failed config env userId guildId channelId bot w e Hs).
      erewrite since_app; [| reflexivity]. intros [].
  - rewrite perform_burn_run. intro Hin. left.
    exact (proj2 (proj2 (tidy_burn config env userId guildId channelId bot w)) t Hin).
Qed.



(** *** More on the recovery at start-up *)

Lemma recoverEach_without_connection config env l : forall w,
  bots w = [] -> run env (recoverEach config l) w = (Resolved tt, w).
Proof.
  induction l as [| user l IH]; intros w Hb; [reflexivity |].
  cbn [recoverEach]. rewrite run_bind. unfold recoverOne.
  rewrite run_bind, run_call. cbn [exec].
  destruct (clock w <? u_expiresAt user); rewrite run_bind, run_call; cbn [exec];
    rewrite Hb; cbn [run]; apply IH; exact Hb.
Qed.

(** With no connection in the registry the recovery does nothing at all,
    however many sessions are on record and whether or not they have expired:
    it arms no timer, burns nothing, and logs that the plugin was loaded. *)
Theorem recovery_without_connection_does_nothing (config : Config) (env : Env)
    (w : World) :
  bots w = [] ->
  run env (onReady config) w =
  (Resolved tt, add_log (mkLog LInfo "阅后即焚插件加载成功" None) w).
Proof.
  intro Hb. unfold onReady. rewrite run_try_catch, run_bind, run_await. cbn [exec].
  rewrite run_bind, (recoverEach_without_connection config env _ w Hb), run_call.
  reflexivity.
Qed.

(** The restart of the example, with no connection. *)
Lemma recovery_without_connection_does_nothing_witness :
  users (snd (run kindEnv (onReady defaultConfig) (afterRestart [])))
  = users (afterRestart []) /\
  timers (snd (run kindEnv (onReady defaultConfig) (afterRestart []))) = [].
Proof.
  rewrite (recovery_without_connection_does_nothing defaultConfig kindEnv
             (afterRestart []) eq_refl).
  split; reflexivity.
Defined.

Lemma exec_onlyThanks env R (c : Cmd R) w :
  sendsOnlyThanks R c -> onlyThanks w (snd (exec env c w)).
Proof.
  unfold onlyThanks. destruct c; simpl; intro H;
    try match goal with
        | |- context [create env w] => destruct (create env w); simpl
        end;
    first [ exists []; rewrite app_nil_r; split; [reflexivity | constructor]
          | eexists; split; [reflexivity |]; simpl; repeat constructor; exact H ].
Qed.

Lemma run_onlyThanks env A (p : Prog A) w :
  within sendsOnlyThanks p -> onlyThanks w (snd (run env p w)).
Proof.
  intro H.
  refine (within_run sendsOnlyThanks env onlyThanks _ _ (exec_onlyThanks env) p H w).
  - intro w0. exists []. rewrite app_nil_r. split; [reflexivity | constructor].
  - intros w1 w2 w3 [l1 [E1 T1]] [l2 [E2 T2]]. exists (l1 ++ l2)%list.
    rewrite E2, E1, <- app_assoc, sends_app. split; [reflexivity |].
    apply Forall_app. split; assumption.
Qed.

Lemma burn_sends_only_thanks config userId guildId channelId bot :
  within sendsOnlyThanks (burnAfterReading config userId guildId channelId bot).
Proof.
  unfold burnAfterReading, batchRecallMessages.
  footprint_with ltac:(first [ exact I
                             | reflexivity
                             | apply recallEach_within; intros; exact I ]).
Qed.

Lemma onReady_sends_only_thanks config : within sendsOnlyThanks (onReady config).
Proof.
  unfold onReady.
  footprint_with
    ltac:(first [ exact I
                | apply recoverEach_within; intro; unfold recoverOne, scheduleExpiration;
                  footprint_with
                    ltac:(first [exact I | apply burn_sends_only_thanks]) ]).
Qed.

(** The recovery sends no notice of expiry.  The only messages sent while
    the sessions on record are recovered are the thanks that end the burns: a
    session that expired while the process was down is burnt without the
    notice that the timer's callback sends before it burns. *)
Theorem recovery_sends_only_thanks (config : Config) (env : Env) (w : World)
    (s : Bot * ChannelId * string) :
  In s (sends (since w (snd (run env (onReady config) w)))) -> snd s = thanks.
Proof.
  destruct (run_onlyThanks env _ (onReady config) w (onReady_sends_only_thanks config))
    as [l [E T]].
  rewrite (since_app _ _ _ E). rewrite Forall_forall in T. apply T.
Qed.

(** The restart of the example: the one message sent is the thanks. *)
Lemma recovery_sends_only_thanks_witness :
  sends (since (afterRestart ["bot"])
               (snd (run kindEnv (onReady defaultConfig) (afterRestart ["bot"]))))
  = [("bot", "c1", thanks)] /\
  snd ("bot", "c1", thanks) = thanks.
Proof.
  split; [vm_compute; reflexivity |].
  apply (recovery_sends_only_thanks defaultConfig kindEnv (afterRestart ["bot"])).
  vm_compute. left. reflexivity.
Defined.
